(** * Penalty tracking: the client logic of the infringement views

    A shallow embedding of the TypeScript sources of the penalty tracking
    front end, in two generations that live side by side in the tree:

    - the session-backed application ([Racelith]): [App.tsx] and the
      [InfringementLog] component with its pop-up window script, working on
      the [InfringementRecord]s served by the REST interface;
    - the local-state application ([Kronos]): the earlier [App] component
      that keeps the list of infringements in component state, with the
      [InfringementForm], [EditInfringementDialog], [PendingPenalties]
      components.

    The [JS] module holds the few pieces of the ECMAScript library the
    sources rely on (string trimming, case conversion, the [Number]
    conversion, strict equality of numbers). *)

From Stdlib Require Import ZArith QArith List String Ascii Bool Lia.
From Stdlib Require Import DecimalString DecimalZ DecimalPos Sorted.
Import ListNotations.

Local Open Scope string_scope.
Local Open Scope Z_scope.

(** ** The ECMAScript library functions used by the sources *)

Module JS.

(** Strings are sequences of code units; the model keeps the code units of
    the Latin-1 range, one [ascii] each. *)
Definition code (c : ascii) : Z := Z.of_N (N_of_ascii c).

(** [WhiteSpace] and [LineTerminator] code units below U+0100: TAB, LF, VT,
    FF, CR, SP and NBSP. *)
Definition isWhiteSpace (c : ascii) : bool :=
  let n := code c in
  ((9 <=? n) && (n <=? 13)) || (n =? 32) || (n =? 160).

Fixpoint trimStart (s : string) : string :=
  match s with
  | EmptyString => EmptyString
  | String c s' => if isWhiteSpace c then trimStart s' else s
  end.

Fixpoint trimEnd (s : string) : string :=
  match s with
  | EmptyString => EmptyString
  | String c s' =>
      let t := trimEnd s' in
      if isWhiteSpace c && (t =? "")%string then EmptyString else String c t
  end.

(** [String.prototype.trim]. *)
Definition trim (s : string) : string := trimEnd (trimStart s).

Definition lowerChar (c : ascii) : ascii :=
  let n := code c in
  if ((65 <=? n) && (n <=? 90))
     || ((192 <=? n) && (n <=? 222) && negb (n =? 215))
  then ascii_of_N (Z.to_N (n + 32)) else c.

(** [String.prototype.toLowerCase]. *)
Fixpoint toLowerCase (s : string) : string :=
  match s with
  | EmptyString => EmptyString
  | String c s' => String (lowerChar c) (toLowerCase s')
  end.

(** [ToBoolean] on a string: only the empty string is falsy. *)
Definition truthy (s : string) : bool := negb (s =? "")%string.

(** Number values.  Finite values are kept exact, as rationals: the rounding
    to binary64 that an engine performs is not part of the model, which
    therefore agrees with an engine whenever the exact values compared are
    representable (every integer below 2^53 is). *)
Inductive number : Type :=
  | NaN
  | Infinity (negative : bool)
  | Finite (q : Q).

(** [x === y] on numbers: [NaN] differs from everything, itself included. *)
Definition strictEquals (x y : number) : bool :=
  match x, y with
  | Finite a, Finite b => Qeq_bool a b
  | Infinity a, Infinity b => Bool.eqb a b
  | _, _ => false
  end.

(** The value of a digit in the given radix, if it is one. *)
Definition digitValue (radix : Z) (c : ascii) : option Z :=
  let n := code c in
  let v := if (48 <=? n) && (n <=? 57) then n - 48
           else if (97 <=? n) && (n <=? 102) then n - 87
           else if (65 <=? n) && (n <=? 70) then n - 55
           else radix in
  if v <? radix then Some v else None.

(** The longest run of digits at the head of the input: the value
    accumulated onto [acc], the number of digits read, and what is left. *)
Fixpoint digits (radix acc : Z) (n : nat) (cs : list ascii)
  : Z * nat * list ascii :=
  match cs with
  | c :: cs' =>
      match digitValue radix c with
      | Some v => digits radix (acc * radix + v) (S n) cs'
      | None => (acc, n, cs)
      end
  | [] => (acc, n, cs)
  end.

Definition sign (cs : list ascii) : bool * list ascii :=
  match cs with
  | "+"%char :: cs' => (false, cs')
  | "-"%char :: cs' => (true, cs')
  | _ => (false, cs)
  end.

(** [ExponentPart], or nothing, up to the end of the input. *)
Definition exponentPart (cs : list ascii) : option Z :=
  match cs with
  | [] => Some 0
  | c :: cs' =>
      if (c =? "e")%char || (c =? "E")%char then
        let (neg, ds) := sign cs' in
        match digits 10 0 0 ds with
        | (v, S _, []) => Some (if neg then - v else v)
        | _ => None
        end
      else None
  end.

(** [StrUnsignedDecimalLiteral] without [Infinity]: the digits read as one
    integer and the power of ten that scales it. *)
Definition unsignedDecimal (cs : list ascii) : option (Z * Z) :=
  let '(i, ni, r1) := digits 10 0 0 cs in
  let '(m, nf, r2) :=
    match r1 with
    | "."%char :: r => digits 10 i 0 r
    | _ => (i, O, r1)
    end in
  match (ni + nf)%nat with
  | O => None
  | S _ =>
      match exponentPart r2 with
      | Some e => Some (m, e - Z.of_nat nf)
      | None => None
      end
  end.

Definition scale (m e : Z) : Q :=
  if 0 <=? e then inject_Z (m * 10 ^ e) else Qmake m (Z.to_pos (10 ^ (- e))).

(** [StrDecimalLiteral]. *)
Definition decimalLiteral (cs : list ascii) : number :=
  let (neg, body) := sign cs in
  if (string_of_list_ascii body =? "Infinity")%string then Infinity neg
  else
    match unsignedDecimal body with
    | Some (m, e) => Finite (scale (if neg then - m else m) e)
    | None => NaN
    end.

(** [NonDecimalIntegerLiteral]: [0x], [0o] and [0b] numerals, unsigned. *)
Definition nonDecimalLiteral (cs : list ascii) : option Z :=
  match cs with
  | "0"%char :: p :: ds =>
      let radix :=
        if (p =? "x")%char || (p =? "X")%char then Some 16
        else if (p =? "o")%char || (p =? "O")%char then Some 8
        else if (p =? "b")%char || (p =? "B")%char then Some 2
        else None in
      match radix with
      | Some r =>
          match digits r 0 0 ds with
          | (v, S _, []) => Some v
          | _ => None
          end
      | None => None
      end
  | _ => None
  end.

(** [Number(s)] on a string ([StringToNumber]): white space around the
    literal is ignored, the empty literal is [0], anything outside the
    grammar is [NaN]. *)
Definition Number (s : string) : number :=
  match list_ascii_of_string (trim s) with
  | [] => Finite 0
  | cs =>
      match nonDecimalLiteral cs with
      | Some v => Finite (inject_Z v)
      | None => decimalLiteral cs
      end
  end.

(** [Number.prototype.toString] on an integer below 10^21 in magnitude:
    its decimal numeral. *)
Definition toString (z : Z) : string := NilZero.string_of_int (Z.to_int z).

End JS.

(** ** Decimal numerals *)

Module Numeral.

(** The value of a decimal numeral read left to right onto [acc], as
    [JS.digits] accumulates it. *)
Fixpoint uintValue (acc : Z) (d : Decimal.uint) : Z :=
  match d with
  | Decimal.Nil => acc
  | Decimal.D0 d => uintValue (acc * 10 + 0) d
  | Decimal.D1 d => uintValue (acc * 10 + 1) d
  | Decimal.D2 d => uintValue (acc * 10 + 2) d
  | Decimal.D3 d => uintValue (acc * 10 + 3) d
  | Decimal.D4 d => uintValue (acc * 10 + 4) d
  | Decimal.D5 d => uintValue (acc * 10 + 5) d
  | Decimal.D6 d => uintValue (acc * 10 + 6) d
  | Decimal.D7 d => uintValue (acc * 10 + 7) d
  | Decimal.D8 d => uintValue (acc * 10 + 8) d
  | Decimal.D9 d => uintValue (acc * 10 + 9) d
  end.

End Numeral.

(** ** The session-backed application *)

Module Racelith.

(** Modelled from the spec: the [InfringementRecord] type is declared in
    [api.ts], which is not in the tree; the fields are those of the data
    model.  [timestamp] holds the instant the stored time string denotes,
    in milliseconds since the epoch (what [new Date(ts).getTime()] yields). *)
Record InfringementRecord : Type := mkRecord {
  id : Z;
  kart_number : Z;
  turn_number : option Z;
  observer : string;
  description : string;
  penalty_description : option string;
  penalty_due : string;
  penalty_taken : bool;
  performed_by : string;
  timestamp : Z
}.

(** Modelled from the spec: the [PendingPenalty] type of [api.ts] is not in
    the tree either; it is the read projection of a record, identified by
    the record's [id]. *)
Definition PendingPenalty : Type := InfringementRecord.

(** [o === s] for a nullable string [o]. *)
Definition isString (o : option string) (s : string) : bool :=
  match o with
  | Some x => (x =? s)%string
  | None => false
  end.

(** [a > b] on exact values. *)
Definition gt (a b : Q) : bool := negb (Qle_bool a b).

(** [(now.getTime() - timestamp.getTime()) / (1000 * 60)]. *)
Definition diffMinutes (now ts : Z) : Q :=
  (inject_Z (now - ts) / inject_Z (1000 * 60))%Q.

Module InfringementLog.

(** The default of the [warningExpiryMinutes] property. *)
Definition defaultWarningExpiryMinutes : Q := inject_Z 180.

(** The [isExpired] helper of the component. *)
Definition isExpired (warningExpiryMinutes : Q) (now : Z)
  (inf : InfringementRecord) : bool :=
  if negb (isString (penalty_description inf) "Warning") then false
  else gt (diffMinutes now (timestamp inf)) warningExpiryMinutes.

(** The status label computed for a row of the table. *)
Definition statusLabel (warningExpiryMinutes : Q) (now : Z)
  (inf : InfringementRecord) : string :=
  let isWarning := isString (penalty_description inf) "Warning" in
  let isExpiredWarning :=
    isWarning && gt (diffMinutes now (timestamp inf)) warningExpiryMinutes in
  let penaltyApplied :=
    (penalty_due inf =? "No")%string && penalty_taken inf && negb isWarning in
  if penaltyApplied then "Applied"
  else if isExpiredWarning then "Expired"
  else if isWarning then "Warning"
  else if (penalty_due inf =? "Yes")%string then "Pending"
  else "Cleared".

(** The rows shown for the content of the search box. *)
Definition filteredInfringements (searchKartNumber : string)
  (infringements : list InfringementRecord) : list InfringementRecord :=
  if JS.truthy searchKartNumber then
    filter
      (fun inf =>
         let searchValue := JS.trim searchKartNumber in
         let kartNum := JS.toString (kart_number inf) in
         (kartNum =? searchValue)%string
         || JS.strictEquals (JS.Number kartNum) (JS.Number searchValue))
      infringements
  else infringements.

End InfringementLog.

(** The script of the pop-up window that [handleExpand] writes out. *)
Module Popup.

(** [warningExpiryMinutes || 180]: the value the script is generated with. *)
Definition expiryMins (warningExpiryMinutes : Q) : Q :=
  if Qeq_bool warningExpiryMinutes 0 then inject_Z 180
  else warningExpiryMinutes.

Definition isExpired (WARNING_EXPIRY_MINUTES : Q) (now : Z)
  (inf : InfringementRecord) : bool :=
  if negb (isString (penalty_description inf) "Warning") then false
  else gt (diffMinutes now (timestamp inf)) WARNING_EXPIRY_MINUTES.

Definition getStatus (WARNING_EXPIRY_MINUTES : Q) (now : Z)
  (inf : InfringementRecord) : string :=
  let isW := isString (penalty_description inf) "Warning" in
  let applied :=
    (penalty_due inf =? "No")%string && penalty_taken inf && negb isW in
  if applied then "Applied"
  else if isExpired WARNING_EXPIRY_MINUTES now inf then "Expired"
  else if isW then "Warning"
  else if (penalty_due inf =? "Yes")%string then "Pending"
  else "Cleared".

(** The rows [refreshTable] renders from the fetched list [d], for the
    content [value] of the search input. *)
Definition refreshTable_rows (value : string) (d : list InfringementRecord)
  : list InfringementRecord :=
  let sv := JS.toLowerCase (JS.trim value) in
  if JS.truthy sv then
    filter
      (fun i =>
         let kn := JS.toString (kart_number i) in
         (kn =? sv)%string || JS.strictEquals (JS.Number kn) (JS.Number sv))
      d
  else d.

End Popup.

Module App.

(** How an awaited call of the REST client ends. *)
Inductive Settled (A : Type) : Type :=
  | Resolved (a : A)
  | Rejected (message : string).
Arguments Resolved {A} a.
Arguments Rejected {A} message.

Inductive Toast : Type :=
  | ToastSuccess (title : string)
  | ToastError (title description : string).

(** The two lists of the component state that the handlers below touch. *)
Record State : Type := mkState {
  infringements : list InfringementRecord;
  pendingPenalties : list PendingPenalty
}.

(** [message || fallback]. *)
Definition orElse (message fallback : string) : string :=
  if JS.truthy message then message else fallback.

(** [handleDeleteInfringement id]: [response] is how the awaited
    [deleteInfringement(id)] ended. *)
Definition handleDeleteInfringement (response : Settled unit) (id0 : Z)
  (st : State) : State * Toast :=
  match response with
  | Resolved _ =>
      (mkState
         (filter (fun inf => negb (id inf =? id0)) (infringements st))
         (filter (fun penalty => negb (id penalty =? id0))
            (pendingPenalties st)),
       ToastSuccess "Infringement deleted successfully")
  | Rejected message =>
      (st,
       ToastError "Error Deleting Infringement"
         (orElse message "Failed to delete infringement"))
  end.

End App.

End Racelith.

(** ** The local-state application *)

Module Kronos.

(** The [Infringement] interface; [timestamp] is the [Date], in
    milliseconds since the epoch. *)
Record Infringement : Type := mkInfringement {
  id : string;
  kartNumber : string;
  turn : string;
  observer : string;
  infringement : string;
  penaltyDescription : string;
  penaltyApplied : bool;
  timestamp : Z
}.

(** [Omit<Infringement, 'id'>]: what the form hands to [onSubmit]. *)
Record NewInfringement : Type := mkNew {
  new_kartNumber : string;
  new_turn : string;
  new_observer : string;
  new_infringement : string;
  new_penaltyDescription : string;
  new_penaltyApplied : bool;
  new_timestamp : Z
}.

(** The five text fields that both the form and the edit dialog keep in
    component state. *)
Record Fields : Type := mkFields {
  f_kartNumber : string;
  f_turn : string;
  f_observer : string;
  f_infringement : string;
  f_penaltyDescription : string
}.

(** [!s] on a string. *)
Definition falsy (s : string) : bool := negb (JS.truthy s).

(** The guard shared by [handleSubmit] and [handleSave]:
    [!kartNumber || !turn || !observer || !infringement || !penaltyDescription]. *)
Definition anyEmpty (f : Fields) : bool :=
  falsy (f_kartNumber f) || falsy (f_turn f) || falsy (f_observer f)
  || falsy (f_infringement f) || falsy (f_penaltyDescription f).

Module InfringementForm.

Definition cleared : Fields := mkFields "" "" "" "" "".

(** [handleSubmit]: what is passed to [onSubmit], if anything, and the
    state of the form afterwards; [now] is [new Date()]. *)
Definition handleSubmit (now : Z) (f : Fields)
  : option NewInfringement * Fields :=
  if anyEmpty f then (None, f)
  else
    (Some (mkNew (f_kartNumber f) (f_turn f) (f_observer f)
             (f_infringement f) (f_penaltyDescription f) false now),
     cleared).

End InfringementForm.

Module EditInfringementDialog.

(** [handleSave]: what is passed to [onSave], if anything, and whether the
    dialog is still open; [current] is the [infringement] property. *)
Definition handleSave (current : option Infringement) (f : Fields)
  (open : bool) : option Infringement * bool :=
  match current with
  | None => (None, open)
  | Some inf =>
      if anyEmpty f then (None, open)
      else
        (Some (mkInfringement (id inf) (f_kartNumber f) (f_turn f)
                 (f_observer f) (f_infringement f) (f_penaltyDescription f)
                 (penaltyApplied inf) (timestamp inf)),
         false)
  end.

End EditInfringementDialog.

Module PendingPenalties.

(** The rows of the pending-penalty table. *)
Definition pendingPenalties (infringements : list Infringement)
  : list Infringement :=
  filter
    (fun inf =>
       negb (penaltyApplied inf)
       && negb (penaltyDescription inf =? "Warning")%string)
    infringements.

End PendingPenalties.

Module App.

(** [handleNewInfringement]; [uuid] is [crypto.randomUUID()]. *)
Definition handleNewInfringement (uuid : string) (n : NewInfringement)
  (prev : list Infringement) : list Infringement :=
  mkInfringement uuid (new_kartNumber n) (new_turn n) (new_observer n)
    (new_infringement n) (new_penaltyDescription n) (new_penaltyApplied n)
    (new_timestamp n)
  :: prev.

Definition handleApplyPenalty (id0 : string) (prev : list Infringement)
  : list Infringement :=
  map
    (fun inf =>
       if (id inf =? id0)%string then
         mkInfringement (id inf) (kartNumber inf) (turn inf) (observer inf)
           (infringement inf) (penaltyDescription inf) true (timestamp inf)
       else inf)
    prev.

Definition handleSaveEdit (updatedInfringement : Infringement)
  (prev : list Infringement) : list Infringement :=
  map
    (fun inf =>
       if (id inf =? id updatedInfringement)%string then updatedInfringement
       else inf)
    prev.

Definition handleDeleteInfringement (id0 : string)
  (prev : list Infringement) : list Infringement :=
  filter (fun inf => negb (id inf =? id0)%string) prev.

(** Pressing the submit button of the form mounted with
    [onSubmit = handleNewInfringement]: the list and the form afterwards. *)
Definition submitForm (now : Z) (uuid : string) (f : Fields)
  (prev : list Infringement) : list Infringement * Fields :=
  match InfringementForm.handleSubmit now f with
  | (Some n, f') => (handleNewInfringement uuid n prev, f')
  | (None, f') => (prev, f')
  end.

(** Pressing the save button of the dialog mounted with
    [onSave = handleSaveEdit]. *)
Definition saveDialog (current : option Infringement) (f : Fields)
  (prev : list Infringement) : list Infringement :=
  match EditInfringementDialog.handleSave current f true with
  | (Some updated, _) => handleSaveEdit updated prev
  | (None, _) => prev
  end.

(** Modelled from the spec: the error kinds a service operation may fail
    with; the sources of the local-state application declare none. *)
Inductive ServiceError : Type :=
  | ValidationError
  | NotFound
  | Conflict
  | NoActiveSession
  | StoreError.

(** How a call of a handler ends. *)
Inductive Outcome (A : Type) : Type :=
  | Returned (a : A)
  | Thrown (e : ServiceError).
Arguments Returned {A} a.
Arguments Thrown {A} e.

(** The three operations on an existing record, as calls of the handlers:
    none of the handlers contains a [throw], and [map] and [filter] with
    their callbacks raise nothing, so every call returns. *)
Definition applyPenalty (id0 : string) (prev : list Infringement)
  : Outcome (list Infringement) := Returned (handleApplyPenalty id0 prev).

Definition update (updated : Infringement) (prev : list Infringement)
  : Outcome (list Infringement) := Returned (handleSaveEdit updated prev).

Definition delete (id0 : string) (prev : list Infringement)
  : Outcome (list Infringement) :=
  Returned (handleDeleteInfringement id0 prev).

(** Whether some record of the list carries the id. *)
Definition present (id0 : string) (l : list Infringement) : bool :=
  existsb (fun inf => (id inf =? id0)%string) l.

End App.

End Kronos.

(** ** The derived status, in the words of the data model *)

Module Spec.

Import Racelith.

Inductive Status : Type := Applied | Expired | Warning | Pending | Cleared.

Definition label (s : Status) : string :=
  match s with
  | Applied => "Applied"
  | Expired => "Expired"
  | Warning => "Warning"
  | Pending => "Pending"
  | Cleared => "Cleared"
  end.

(** Minutes elapsed since the record was created. *)
Definition elapsedMinutes (now : Z) (r : InfringementRecord) : Q :=
  Qmake (now - timestamp r) 60000.

Definition isWarning (r : InfringementRecord) : Prop :=
  penalty_description r = Some "Warning".

Definition isApplied (r : InfringementRecord) : Prop :=
  penalty_due r = "No" /\ penalty_taken r = true /\ ~ isWarning r.

Definition isExpired (expiry : Q) (now : Z) (r : InfringementRecord) : Prop :=
  (expiry < elapsedMinutes now r)%Q.

(** Applied, otherwise Expired, otherwise Warning, otherwise Pending,
    otherwise Cleared. *)
Inductive derives (expiry : Q) (now : Z) (r : InfringementRecord)
  : Status -> Prop :=
  | derives_Applied :
      isApplied r -> derives expiry now r Applied
  | derives_Expired :
      ~ isApplied r -> isWarning r -> isExpired expiry now r ->
      derives expiry now r Expired
  | derives_Warning :
      ~ isApplied r -> ~ (isWarning r /\ isExpired expiry now r) ->
      isWarning r -> derives expiry now r Warning
  | derives_Pending :
      ~ isApplied r -> ~ isWarning r -> penalty_due r = "Yes" ->
      derives expiry now r Pending
  | derives_Cleared :
      ~ isApplied r -> ~ isWarning r -> penalty_due r <> "Yes" ->
      derives expiry now r Cleared.

End Spec.

(** ** Sample data used by the worked examples *)

Module Samples.

(** A record of the session-backed store; id, kart, penalty, due flag,
    taken flag and creation time are the parts that vary. *)
Definition record (n kart : Z) (penalty : option string) (due : string)
  (taken : bool) (ts : Z) : Racelith.InfringementRecord :=
  Racelith.mkRecord n kart (Some 3) "J" "Blocking" penalty due taken
    "Race Control Operator" ts.

Definition warning : Racelith.InfringementRecord :=
  record 1 17 (Some "Warning") "No" false 0.

Definition applied5 : Racelith.InfringementRecord :=
  record 5 7 (Some "5 Sec") "No" true 0.

Definition kart0 : Racelith.InfringementRecord :=
  record 1 0 (Some "5 Sec") "Yes" false 0.

Definition kart5 : Racelith.InfringementRecord :=
  record 2 5 (Some "5 Sec") "Yes" false 0.

Definition kart42 : Racelith.InfringementRecord :=
  record 3 42 (Some "5 Sec") "Yes" false 0.

Definition kart420 : Racelith.InfringementRecord :=
  record 4 420 (Some "10 Sec") "Yes" false 0.

(** Records of the local-state application, after its sample data. *)
Definition trackLimits : Kronos.Infringement :=
  Kronos.mkInfringement "1" "42" "Turn 3" "John Smith" "Track Limits"
    "5 Sec" false 1000.

Definition blocking : Kronos.Infringement :=
  Kronos.mkInfringement "2" "17" "Turn 7" "Sarah Johnson" "Blocking"
    "Warning" false 2000.

Definition dangerous : Kronos.Infringement :=
  Kronos.mkInfringement "3" "88" "Turn 1" "Mike Davis" "Dangerous Driving"
    "Stop and Go" true 3000.

Definition sampleData : list Kronos.Infringement :=
  [trackLimits; blocking; dangerous].

End Samples.

(** ** What applying a penalty may and may not change *)

Module Frame.

Import Kronos.

(** [{...inf, penaltyApplied: true}]. *)
Definition applied (inf : Infringement) : Infringement :=
  mkInfringement (id inf) (kartNumber inf) (turn inf) (observer inf)
    (infringement inf) (penaltyDescription inf) true (timestamp inf).

(** The two records agree on every field but the applied flag. *)
Definition sameButFlag (r r' : Infringement) : Prop :=
  id r' = id r /\ kartNumber r' = kartNumber r /\ turn r' = turn r
  /\ observer r' = observer r /\ infringement r' = infringement r
  /\ penaltyDescription r' = penaltyDescription r
  /\ timestamp r' = timestamp r.

End Frame.

(** ** The local-state application: the rest of the views *)

Module KronosViews.

Import Kronos.

(** The effect of [EditInfringementDialog] that runs when the [infringement]
    property changes: the five fields are loaded from the record. *)
Definition syncFields (current : option Infringement) (f : Fields) : Fields :=
  match current with
  | Some inf =>
      mkFields (kartNumber inf) (turn inf) (observer inf) (infringement inf)
        (penaltyDescription inf)
  | None => f
  end.

(** [handleEditInfringement] of the application: the record handed to the
    dialog and the open flag. *)
Definition handleEditInfringement (inf : Infringement)
  : option Infringement * bool := (Some inf, true).

(** [handleCancel] of the dialog: [onOpenChange(false)]. *)
Definition handleCancel (open : bool) : bool := false.


(** The status badge of a row in the earlier [InfringementLog]. *)
Definition badge (inf : Infringement) : string :=
  if penaltyApplied inf then "Applied" else "Pending".

(** Every text field of the record is non-empty. *)
Definition complete (inf : Infringement) : bool :=
  JS.truthy (kartNumber inf) && JS.truthy (turn inf)
  && JS.truthy (observer inf) && JS.truthy (infringement inf)
  && JS.truthy (penaltyDescription inf).

(** Most recent first: no record is older than the one after it. *)
Definition notOlder (a b : Infringement) : Prop := timestamp b <= timestamp a.

End KronosViews.

(** ** The session-backed application: the whole of [App.tsx] *)

Module Shell.

Import Racelith.
Import Racelith.App.

(** [String.prototype.includes]. *)
Fixpoint includes (s sub : string) : bool :=
  String.prefix sub s
  || match s with
     | EmptyString => false
     | String _ s' => includes s' sub
     end.

(** [ToBoolean] on an object: always true. *)
Definition truthyObject {A : Type} (o : A) : bool := true.

(** Modelled from the spec: the session summaries that [listSessions]
    returns are declared in [api.ts], which is not in the tree; a session
    has a name and a status. *)
Record Session : Type := mkSession {
  name : string;
  status : string
}.



Inductive View : Type := sessions | penalty_logging.

(** The state of the [App] component, and the toasts raised so far. *)
Record Model : Type := mkModel {
  currentView : View;
  activeSessionName : option string;
  infringements : list InfringementRecord;
  pendingPenalties : list PendingPenalty;
  editingInfringement : option InfringementRecord;
  editDialogOpen : bool;
  isLoading : bool;
  isApplyingPenalty : bool;
  isSavingEdit : bool;
  hasActiveSession : option bool;
  loadError : option string;
  toasts : list Toast
}.

Definition setView (v : View) (m : Model) : Model :=
  mkModel v (activeSessionName m) (infringements m) (pendingPenalties m)
    (editingInfringement m) (editDialogOpen m) (isLoading m)
    (isApplyingPenalty m) (isSavingEdit m) (hasActiveSession m) (loadError m)
    (toasts m).

Definition setActiveSessionName (n : option string) (m : Model) : Model :=
  mkModel (currentView m) n (infringements m) (pendingPenalties m)
    (editingInfringement m) (editDialogOpen m) (isLoading m)
    (isApplyingPenalty m) (isSavingEdit m) (hasActiveSession m) (loadError m)
    (toasts m).

Definition setInfringements (l : list InfringementRecord) (m : Model)
  : Model :=
  mkModel (currentView m) (activeSessionName m) l (pendingPenalties m)
    (editingInfringement m) (editDialogOpen m) (isLoading m)
    (isApplyingPenalty m) (isSavingEdit m) (hasActiveSession m) (loadError m)
    (toasts m).

Definition setPendingPenalties (l : list PendingPenalty) (m : Model)
  : Model :=
  mkModel (currentView m) (activeSessionName m) (infringements m) l
    (editingInfringement m) (editDialogOpen m) (isLoading m)
    (isApplyingPenalty m) (isSavingEdit m) (hasActiveSession m) (loadError m)
    (toasts m).

Definition setEditing (e : option InfringementRecord) (open : bool)
  (m : Model) : Model :=
  mkModel (currentView m) (activeSessionName m) (infringements m)
    (pendingPenalties m) e open (isLoading m) (isApplyingPenalty m)
    (isSavingEdit m) (hasActiveSession m) (loadError m) (toasts m).

Definition setIsLoading (b : bool) (m : Model) : Model :=
  mkModel (currentView m) (activeSessionName m) (infringements m)
    (pendingPenalties m) (editingInfringement m) (editDialogOpen m) b
    (isApplyingPenalty m) (isSavingEdit m) (hasActiveSession m) (loadError m)
    (toasts m).

Definition setIsApplyingPenalty (b : bool) (m : Model) : Model :=
  mkModel (currentView m) (activeSessionName m) (infringements m)
    (pendingPenalties m) (editingInfringement m) (editDialogOpen m)
    (isLoading m) b (isSavingEdit m) (hasActiveSession m) (loadError m)
    (toasts m).

Definition setIsSavingEdit (b : bool) (m : Model) : Model :=
  mkModel (currentView m) (activeSessionName m) (infringements m)
    (pendingPenalties m) (editingInfringement m) (editDialogOpen m)
    (isLoading m) (isApplyingPenalty m) b (hasActiveSession m) (loadError m)
    (toasts m).

Definition setHasActiveSession (b : bool) (m : Model) : Model :=
  mkModel (currentView m) (activeSessionName m) (infringements m)
    (pendingPenalties m) (editingInfringement m) (editDialogOpen m)
    (isLoading m) (isApplyingPenalty m) (isSavingEdit m) (Some b)
    (loadError m) (toasts m).

Definition setLoadError (e : option string) (m : Model) : Model :=
  mkModel (currentView m) (activeSessionName m) (infringements m)
    (pendingPenalties m) (editingInfringement m) (editDialogOpen m)
    (isLoading m) (isApplyingPenalty m) (isSavingEdit m) (hasActiveSession m)
    e (toasts m).

(** A call of [toast.success] or [toast.error]. *)
Definition toast (t : Toast) (m : Model) : Model :=
  mkModel (currentView m) (activeSessionName m) (infringements m)
    (pendingPenalties m) (editingInfringement m) (editDialogOpen m)
    (isLoading m) (isApplyingPenalty m) (isSavingEdit m) (hasActiveSession m)
    (loadError m) (toasts m ++ [t])%list.

(** What [checkActiveSession] returns. *)
Record ActiveCheck : Type := mkCheck {
  hasActive : bool;
  sessionName : option string
}.

(** [checkActiveSession]; [response] is how [listSessions()] ended. *)
Definition checkActiveSession (response : Settled (list Session))
  (m : Model) : Model * ActiveCheck :=
  match response with
  | Resolved all =>
      let activeSession :=
        find (fun s => (status s =? "active")%string) all in
      let m1 :=
        setHasActiveSession
          (match activeSession with Some _ => true | None => false end) m in
      match activeSession with
      | Some a =>
          (setActiveSessionName (Some (name a)) m1,
           mkCheck true (if JS.truthy (name a) then Some (name a) else None))
      | None => (m1, mkCheck false None)
      end
  | Rejected _ => (m, mkCheck false None)
  end.

(** [loadData(withSpinner)]; [sessionsResponse] is how [listSessions()]
    ended and [listsResponse] how the [Promise.all] of the two fetches
    did. *)
Definition loadData (withSpinner : bool)
  (sessionsResponse : Settled (list Session))
  (listsResponse :
     Settled (list InfringementRecord * list PendingPenalty))
  (m : Model) : Model :=
  let m0 :=
    if withSpinner then setLoadError None (setIsLoading true m) else m in
  let (m1, hasActive) := checkActiveSession sessionsResponse m0 in
  let m2 :=
    if negb (truthyObject hasActive) then
      let m' :=
        setPendingPenalties [] (setInfringements []
          (setHasActiveSession false m1)) in
      if withSpinner then
        setLoadError
          (Some "No active session. Please create or load a session to view infringements.")
          m'
      else m'
    else
      let m' := setHasActiveSession true m1 in
      match listsResponse with
      | Resolved (infringementData, pendingData) =>
          setLoadError None
            (setPendingPenalties pendingData
               (setInfringements infringementData m'))
      | Rejected message =>
          let errorMessage :=
            orElse message "Failed to load data from server" in
          let m'' := setLoadError (Some errorMessage) m' in
          if includes errorMessage "relation"
             || includes errorMessage "does not exist"
             || includes errorMessage "table"
          then
            toast
              (ToastError "Database Error"
                 "No active session found. Please create or load a session first.")
              (setHasActiveSession false m'')
          else toast (ToastError "Error Loading Data" errorMessage) m''
      end in
  if withSpinner then setIsLoading false m2 else m2.


(** [handleNewInfringement]; the responses are those of
    [createInfringement] and of the [fetchPendingPenalties] that follows
    it. *)
Definition handleNewInfringement (created : Settled InfringementRecord)
  (pending : Settled (list PendingPenalty)) (m : Model) : Model :=
  let failed message :=
    let errorMessage := orElse message "Failed to create infringement" in
    ToastError "Error Creating Infringement"
      (if includes errorMessage "relation"
          || includes errorMessage "does not exist"
       then "No active session. Please create or load a session first."
       else errorMessage) in
  match created with
  | Resolved record =>
      let m1 := setInfringements (record :: infringements m) m in
      match pending with
      | Resolved p =>
          toast (ToastSuccess "Infringement created successfully")
            (setPendingPenalties p m1)
      | Rejected message => toast (failed message) m1
      end
  | Rejected message => toast (failed message) m
  end.

(** [handleApplyPenalty]; [applied] is how [applyIndividualPenalty] ended,
    the other two responses are those of the [loadData()] that follows. *)
Definition handleApplyPenalty (applied : Settled unit)
  (sessionsResponse : Settled (list Session))
  (listsResponse :
     Settled (list InfringementRecord * list PendingPenalty))
  (m : Model) : Model :=
  let m0 := setIsApplyingPenalty true m in
  let m1 :=
    match applied with
    | Resolved _ =>
        toast (ToastSuccess "Penalty applied successfully")
          (loadData true sessionsResponse listsResponse m0)
    | Rejected message =>
        toast
          (ToastError "Error Applying Penalty"
             (orElse message "Failed to apply penalty"))
          m0
    end in
  setIsApplyingPenalty false m1.

Definition handleEditInfringement (inf : InfringementRecord) (m : Model)
  : Model := setEditing (Some inf) true m.

(** [handleSaveEdit]; the responses are those of [updateInfringement] and
    of the [fetchPendingPenalties] that follows it. *)
Definition handleSaveEdit (updated : Settled InfringementRecord)
  (pending : Settled (list PendingPenalty)) (m : Model) : Model :=
  let m0 := setIsSavingEdit true m in
  let failed message :=
    ToastError "Error Updating Infringement"
      (orElse message "Failed to update infringement") in
  let m1 :=
    match updated with
    | Resolved u =>
        let m' :=
          setInfringements
            (map (fun inf => if id inf =? id u then u else inf)
               (infringements m0))
            m0 in
        match pending with
        | Resolved p =>
            toast (ToastSuccess "Infringement updated successfully")
              (setPendingPenalties p m')
        | Rejected message => toast (failed message) m'
        end
    | Rejected message => toast (failed message) m0
    end in
  setIsSavingEdit false m1.

(** [handleDeleteInfringement] on the whole state: the two lists as
    [Racelith.App.handleDeleteInfringement] leaves them, and its toast. *)
Definition handleDeleteInfringement (response : Settled unit) (id0 : Z)
  (m : Model) : Model :=
  let (st, t) :=
    App.handleDeleteInfringement response id0
      (mkState (infringements m) (pendingPenalties m)) in
  toast t
    (setPendingPenalties (App.pendingPenalties st)
       (setInfringements (App.infringements st) m)).

Definition handleSessionSelected (sessionName0 : string) (m : Model)
  : Model := setView penalty_logging (setActiveSessionName (Some sessionName0) m).

Definition handleBackToSessions (m : Model) : Model :=
  setActiveSessionName None (setView sessions m).

(** The event types on which the application reloads its data. *)
Definition relevantTypes : list string :=
  ["new_infringement"; "update_infringement"; "delete_infringement";
   "penalty_applied"; "session_started"; "session_loaded"; "session_closed";
   "session_deleted"].

(** The event types on which the pop-up window refreshes its table. *)
Definition popupTypes : list string :=
  ["new_infringement"; "update_infringement"; "delete_infringement";
   "penalty_applied"].

Definition has (types : list string) (type : string) : bool :=
  existsb (fun t => (t =? type)%string) types.

(** The [onmessage] handler of the application socket, on a message that
    parsed to an object with the given [type]: [loadData(false)] when the
    type is a relevant one. *)
Definition onmessage (type : string)
  (sessionsResponse : Settled (list Session))
  (listsResponse :
     Settled (list InfringementRecord * list PendingPenalty))
  (m : Model) : Model :=
  if JS.truthy type && has relevantTypes type
  then loadData false sessionsResponse listsResponse m
  else m.

End Shell.

(** ** The turn cell of a row, in the table and in the pop-up window *)

Module Cells.

Import Racelith.

(** What a cell shows: the dash that stands for a missing value, or a
    text. *)
Inductive Cell : Type :=
  | Dash
  | Text (s : string).

(** The text [escapeHtml] returns: the markup that serialises a text node
    holding [t]. *)
Fixpoint escapeHtml (t : string) : string :=
  match t with
  | EmptyString => EmptyString
  | String c t' =>
      let rest := escapeHtml t' in
      if (c =? "&")%char then "&amp;" ++ rest
      else if (c =? "<")%char then "&lt;" ++ rest
      else if (c =? ">")%char then "&gt;" ++ rest
      else if JS.code c =? 160 then "&nbsp;" ++ rest
      else String c rest
  end.

(** The turn cell of the table: [inf.turn_number ?? '—'], the number being
    rendered as its numeral. *)
Definition tableTurn (inf : InfringementRecord) : Cell :=
  match turn_number inf with
  | Some n => Text (JS.toString n)
  | None => Dash
  end.

(** The markup of the turn cell of the pop-up window:
    [i.turn_number ? escapeHtml(i.turn_number.toString()) : "—"]. *)
Definition popupTurn (i : InfringementRecord) : Cell :=
  match turn_number i with
  | Some n => if n =? 0 then Dash else Text (escapeHtml (JS.toString n))
  | None => Dash
  end.

End Cells.

(** ** Parts of the [Number] grammar, named for the proofs about case *)

Module Lowering.

(** The radix a prefix letter announces, as [JS.nonDecimalLiteral] reads
    it. *)
Definition radixOf (p : ascii) : option Z :=
  if (p =? "x")%char || (p =? "X")%char then Some 16
  else if (p =? "o")%char || (p =? "O")%char then Some 8
  else if (p =? "b")%char || (p =? "B")%char then Some 2
  else None.

(** What is left of a number when the infinities are read as [NaN]. *)
Definition finiteOnly (x : JS.number) : JS.number :=
  match x with
  | JS.Infinity _ => JS.NaN
  | _ => x
  end.

End Lowering.

(** ** Lists left as they are by [map] and [filter] *)

Section ListFacts.

Context {A : Type}.

Lemma map_fixed (f : A -> A) (l : list A) :
  (forall x, In x l -> f x = x) -> map f l = l.
Proof.
  intros H. rewrite <- (map_id l) at 2. apply map_ext_in. exact H.
Qed.

Lemma filter_all (f : A -> bool) (l : list A) :
  (forall x, In x l -> f x = true) -> filter f l = l.
Proof.
  induction l as [|a l IH]; intros H; [reflexivity|]. simpl.
  rewrite (H a) by now left. f_equal. apply IH. intros x Hx. apply H.
  now right.
Qed.

Lemma filter_none (f : A -> bool) (l : list A) :
  (forall x, In x l -> f x = false) -> filter f l = [].
Proof.
  induction l as [|a l IH]; intros H; [reflexivity|]. simpl.
  rewrite (H a) by now left. apply IH. intros x Hx. apply H. now right.
Qed.

End ListFacts.

(** ** Status derivation *)

Section StatusDerivation.

Import Racelith.

Lemma isString_true (o : option string) (s : string) :
  isString o s = true <-> o = Some s.
Proof.
  destruct o as [x|]; simpl.
  - rewrite String.eqb_eq. split; congruence.
  - split; discriminate.
Qed.

Lemma isString_false (o : option string) (s : string) :
  isString o s = false <-> o <> Some s.
Proof.
  rewrite <- isString_true. destruct (isString o s); split; congruence.
Qed.

Lemma gt_true (a b : Q) : gt a b = true <-> (b < a)%Q.
Proof.
  unfold gt. rewrite negb_true_iff, <- not_true_iff_false, Qle_bool_iff.
  split; [apply Qnot_le_lt | apply Qlt_not_le].
Qed.

Lemma diffMinutes_elapsed (now : Z) (r : InfringementRecord) :
  (diffMinutes now (timestamp r) == Spec.elapsedMinutes now r)%Q.
Proof.
  unfold diffMinutes, Spec.elapsedMinutes, Qdiv, Qinv, Qmult, inject_Z, Qeq.
  simpl. lia.
Qed.

Lemma expired_test (W : Q) (now : Z) (r : InfringementRecord) :
  gt (diffMinutes now (timestamp r)) W = true <-> Spec.isExpired W now r.
Proof.
  rewrite gt_true. unfold Spec.isExpired.
  now rewrite diffMinutes_elapsed.
Qed.

(** The pop-up script and the table compute the same label from the same
    expiry window. *)
Lemma getStatus_statusLabel (W : Q) (now : Z) (r : InfringementRecord) :
  Popup.getStatus W now r = InfringementLog.statusLabel W now r.
Proof.
  unfold Popup.getStatus, Popup.isExpired, InfringementLog.statusLabel.
  destruct (isString (penalty_description r) "Warning"); simpl; reflexivity.
Qed.

(** The helper [isExpired] of the component is the test the table inlines. *)
Lemma isExpired_inline (W : Q) (now : Z) (r : InfringementRecord) :
  InfringementLog.isExpired W now r
  = isString (penalty_description r) "Warning"
    && gt (diffMinutes now (timestamp r)) W.
Proof.
  unfold InfringementLog.isExpired.
  destruct (isString (penalty_description r) "Warning"); reflexivity.
Qed.

Lemma label_inj (s t : Spec.Status) : Spec.label s = Spec.label t -> s = t.
Proof. destruct s, t; simpl; intros H; try reflexivity; discriminate H. Qed.

Lemma statusLabel_sound (W : Q) (now : Z) (r : InfringementRecord)
  (s : Spec.Status) :
  Spec.derives W now r s -> InfringementLog.statusLabel W now r = Spec.label s.
Proof.
  intros H. unfold InfringementLog.statusLabel.
  inversion H as [HA|HA HW HE|HA HWE HW|HA HW HY|HA HW HY]; subst; simpl.
  - destruct HA as (HN & HT & HW). apply isString_false in HW.
    rewrite HW, HN, HT. reflexivity.
  - apply isString_true in HW. apply expired_test in HE.
    rewrite HW, HE, andb_false_r. reflexivity.
  - assert (HE : gt (diffMinutes now (timestamp r)) W = false).
    { apply not_true_iff_false. rewrite expired_test. tauto. }
    apply isString_true in HW. rewrite HW, HE, andb_false_r. reflexivity.
  - apply isString_false in HW. rewrite HW, HY. reflexivity.
  - assert (HA' : (penalty_due r =? "No")%string && penalty_taken r = false).
    { apply not_true_iff_false. rewrite andb_true_iff, String.eqb_eq.
      intros [HN HT]. apply HA. unfold Spec.isApplied. tauto. }
    apply isString_false in HW. apply String.eqb_neq in HY.
    rewrite HW, HA', HY. reflexivity.
Qed.

Lemma statusLabel_complete (W : Q) (now : Z) (r : InfringementRecord) :
  exists s, Spec.derives W now r s.
Proof.
  destruct (isString (penalty_description r) "Warning") eqn:EW;
    [apply isString_true in EW | apply isString_false in EW].
  - assert (HA : ~ Spec.isApplied r) by (unfold Spec.isApplied; tauto).
    destruct (gt (diffMinutes now (timestamp r)) W) eqn:EE.
    + apply expired_test in EE. exists Spec.Expired. now constructor.
    + apply not_true_iff_false in EE. rewrite expired_test in EE.
      exists Spec.Warning. constructor; tauto.
  - destruct (String.eqb_spec (penalty_due r) "No") as [EN|EN];
      [destruct (penalty_taken r) eqn:ET|].
    + exists Spec.Applied. constructor. unfold Spec.isApplied. tauto.
    + assert (HA : ~ Spec.isApplied r)
        by (unfold Spec.isApplied; intros (_ & H & _); congruence).
      exists Spec.Cleared. constructor; try assumption.
      rewrite EN. discriminate.
    + assert (HA : ~ Spec.isApplied r) by (unfold Spec.isApplied; tauto).
      destruct (String.eqb_spec (penalty_due r) "Yes") as [EY|EY].
      * exists Spec.Pending. now constructor.
      * exists Spec.Cleared. now constructor.
Qed.

(** C1. The status shown for a record is a total function of the record,
    the current time and the expiry window, and it is the one status the
    data model's cascade derives: Applied when [penalty_due] is "No",
    [penalty_taken] holds and the penalty is not "Warning"; otherwise Expired
    for an expired "Warning"; otherwise Warning for a "Warning"; otherwise
    Pending when [penalty_due] is "Yes"; otherwise Cleared.  The cascade
    derives exactly one status for every record, and the table and the
    pop-up window both display its label. *)
Theorem status_derivation_total (W : Q) (now : Z) (r : InfringementRecord) :
  (exists s, Spec.derives W now r s
             /\ forall t, Spec.derives W now r t -> t = s)
  /\ (forall s, Spec.derives W now r s
                <-> InfringementLog.statusLabel W now r = Spec.label s)
  /\ (forall s, Spec.derives W now r s
                <-> Popup.getStatus W now r = Spec.label s).
Proof.
  assert (Hiff : forall s, Spec.derives W now r s
                 <-> InfringementLog.statusLabel W now r = Spec.label s).
  { intros s. split; [apply statusLabel_sound|].
    intros Hs. destruct (statusLabel_complete W now r) as [t Ht].
    pose proof (statusLabel_sound _ _ _ _ Ht) as Hl.
    rewrite Hs in Hl. apply label_inj in Hl. now subst. }
  split; [|split].
  - destruct (statusLabel_complete W now r) as [s Hs].
    exists s. split; [assumption|].
    intros t Ht. apply label_inj.
    apply Hiff in Hs. apply Hiff in Ht. congruence.
  - exact Hiff.
  - intros s. rewrite getStatus_statusLabel. apply Hiff.
Qed.

(** C1 on the examples of the data model: an applied "5 Sec" penalty and a
    pending one. *)
Lemma status_derivation_total_witness :
  InfringementLog.statusLabel (inject_Z 180) 600000 Samples.applied5
    = "Applied"
  /\ Popup.getStatus (inject_Z 180) 600000 Samples.kart5 = "Pending".
Proof.
  split.
  - apply (proj1 (proj2 (status_derivation_total (inject_Z 180) 600000
                           Samples.applied5)) Spec.Applied).
    constructor. repeat split. discriminate.
  - apply (proj2 (proj2 (status_derivation_total (inject_Z 180) 600000
                           Samples.kart5)) Spec.Pending).
    constructor.
    + intros (H & _). discriminate H.
    + discriminate.
    + reflexivity.
Defined.

(** C2. For a record whose penalty is "Warning" the status is Expired
    exactly when the minutes elapsed since its timestamp strictly exceed the
    expiry window, and Warning otherwise; with a window of 180 minutes such a
    record is Expired 200 minutes after its timestamp and a Warning 10
    minutes after it.  A record whose penalty is not "Warning" is never
    Expired.  This holds of the table, of the pop-up window and of the
    [isExpired] helpers of both. *)
Theorem warning_expiry (W : Q) (now : Z) (r : InfringementRecord) :
  (penalty_description r = Some "Warning" ->
     (InfringementLog.statusLabel W now r = "Expired"
        <-> (W < Spec.elapsedMinutes now r)%Q)
     /\ (InfringementLog.statusLabel W now r = "Warning"
           <-> ~ (W < Spec.elapsedMinutes now r)%Q)
     /\ (Popup.getStatus W now r = "Expired"
           <-> (W < Spec.elapsedMinutes now r)%Q)
     /\ (Popup.getStatus W now r = "Warning"
           <-> ~ (W < Spec.elapsedMinutes now r)%Q)
     /\ (InfringementLog.isExpired W now r = true
           <-> (W < Spec.elapsedMinutes now r)%Q)
     /\ (Popup.isExpired W now r = true
           <-> (W < Spec.elapsedMinutes now r)%Q))
  /\ (penalty_description r = Some "Warning" ->
      now - timestamp r = 200 * 60000 ->
      InfringementLog.statusLabel (inject_Z 180) now r = "Expired"
      /\ Popup.getStatus (inject_Z 180) now r = "Expired")
  /\ (penalty_description r = Some "Warning" ->
      now - timestamp r = 10 * 60000 ->
      InfringementLog.statusLabel (inject_Z 180) now r = "Warning"
      /\ Popup.getStatus (inject_Z 180) now r = "Warning")
  /\ (penalty_description r <> Some "Warning" ->
      InfringementLog.statusLabel W now r <> "Expired"
      /\ Popup.getStatus W now r <> "Expired"
      /\ InfringementLog.isExpired W now r = false
      /\ Popup.isExpired W now r = false).
Proof.
  assert (Hw : forall V, penalty_description r = Some "Warning" ->
            InfringementLog.statusLabel V now r
            = if gt (diffMinutes now (timestamp r)) V
              then "Expired" else "Warning").
  { intros V HW. apply isString_true in HW.
    unfold InfringementLog.statusLabel. rewrite HW, andb_false_r. simpl.
    destruct (gt (diffMinutes now (timestamp r)) V); reflexivity. }
  assert (Hcase : forall V, penalty_description r = Some "Warning" ->
            (InfringementLog.statusLabel V now r = "Expired"
               <-> (V < Spec.elapsedMinutes now r)%Q)
            /\ (InfringementLog.statusLabel V now r = "Warning"
               <-> ~ (V < Spec.elapsedMinutes now r)%Q)).
  { intros V HW. rewrite (Hw V HW).
    pose proof (expired_test V now r) as HE. unfold Spec.isExpired in HE.
    destruct (gt (diffMinutes now (timestamp r)) V);
      destruct HE as [HE1 HE2]; intuition discriminate. }
  split; [|split; [|split]].
  - intros HW. destruct (Hcase W HW) as [H1 H2].
    rewrite !getStatus_statusLabel.
    assert (HI : InfringementLog.isExpired W now r = true
                 <-> (W < Spec.elapsedMinutes now r)%Q).
    { rewrite isExpired_inline, andb_true_iff, expired_test.
      apply isString_true in HW. unfold Spec.isExpired. tauto. }
    assert (HP : Popup.isExpired W now r = true
                 <-> (W < Spec.elapsedMinutes now r)%Q).
    { unfold Popup.isExpired. apply isString_true in HW. rewrite HW. simpl.
      apply expired_test. }
    tauto.
  - intros HW Hd. rewrite getStatus_statusLabel.
    assert (InfringementLog.statusLabel (inject_Z 180) now r = "Expired").
    { apply (Hcase (inject_Z 180) HW).
      unfold Spec.elapsedMinutes, Qlt, inject_Z. simpl. rewrite Hd. lia. }
    tauto.
  - intros HW Hd. rewrite getStatus_statusLabel.
    assert (InfringementLog.statusLabel (inject_Z 180) now r = "Warning").
    { apply (Hcase (inject_Z 180) HW).
      unfold Spec.elapsedMinutes, Qlt, inject_Z. simpl. rewrite Hd. lia. }
    tauto.
  - intros HW. apply isString_false in HW.
    rewrite getStatus_statusLabel.
    unfold InfringementLog.statusLabel, InfringementLog.isExpired,
      Popup.isExpired.
    rewrite HW. simpl.
    destruct ((penalty_due r =? "No")%string && penalty_taken r && true);
      [repeat split; discriminate || reflexivity|].
    destruct (penalty_due r =? "Yes")%string;
      repeat split; discriminate || reflexivity.
Qed.

(** C2 at a "Warning" record created at instant 0, seen 200 minutes and 10
    minutes later with the default window. *)
Lemma warning_expiry_witness :
  InfringementLog.statusLabel (inject_Z 180) 12000000 Samples.warning
    = "Expired"
  /\ InfringementLog.statusLabel (inject_Z 180) 600000 Samples.warning
     = "Warning".
Proof.
  split.
  - apply (warning_expiry (inject_Z 180) 12000000 Samples.warning);
      reflexivity.
  - apply (warning_expiry (inject_Z 180) 600000 Samples.warning);
      reflexivity.
Defined.

(** The comparison is strict: a "Warning" exactly as old as the window is
    still a Warning. *)
Lemma warning_at_the_window (w now : Z) (r : InfringementRecord) :
  penalty_description r = Some "Warning" ->
  now - timestamp r = w * 60000 ->
  InfringementLog.statusLabel (inject_Z w) now r = "Warning".
Proof.
  intros HW Hd. apply isString_true in HW.
  unfold InfringementLog.statusLabel. rewrite HW, andb_false_r. simpl.
  replace (gt (diffMinutes now (timestamp r)) (inject_Z w)) with false;
    [reflexivity|].
  symmetry. apply not_true_iff_false. rewrite gt_true, diffMinutes_elapsed.
  unfold Spec.elapsedMinutes, Qlt, inject_Z. simpl. rewrite Hd. lia.
Qed.

(** For a window of whole minutes the test is one on milliseconds. *)
Lemma expired_in_milliseconds (w now : Z) (r : InfringementRecord) :
  Spec.isExpired (inject_Z w) now r <-> w * 60000 < now - timestamp r.
Proof.
  unfold Spec.isExpired, Spec.elapsedMinutes, Qlt, inject_Z. simpl. lia.
Qed.

(** The pop-up script is generated with [warningExpiryMinutes || 180]: its
    window is the configured one unless that is zero. *)
Lemma expiryMins_nonzero (W : Q) :
  ~ (W == 0)%Q -> Popup.expiryMins W = W.
Proof.
  intros H. unfold Popup.expiryMins.
  destruct (Qeq_bool W 0) eqn:E; [|reflexivity].
  apply Qeq_bool_iff in E. contradiction.
Qed.

Lemma expiryMins_zero : Popup.expiryMins 0 = inject_Z 180.
Proof. reflexivity. Qed.

(** Generated from a non-zero window, the pop-up shows the table's label. *)
Lemma popup_agrees_with_table (W : Q) (now : Z) (r : InfringementRecord) :
  ~ (W == 0)%Q ->
  Popup.getStatus (Popup.expiryMins W) now r
  = InfringementLog.statusLabel W now r.
Proof.
  intros H. now rewrite (expiryMins_nonzero W H), getStatus_statusLabel.
Qed.

Lemma expiryMins_default :
  Popup.expiryMins InfringementLog.defaultWarningExpiryMinutes
  = InfringementLog.defaultWarningExpiryMinutes.
Proof. reflexivity. Qed.

End StatusDerivation.

(** ** The local-state application: pending list, applying a penalty *)

Section LocalState.

Import Kronos.

Import Frame.

Lemma apply_cons (id0 : string) (r : Infringement) (l : list Infringement) :
  App.handleApplyPenalty id0 (r :: l)
  = (if (id r =? id0)%string then applied r else r) :: App.handleApplyPenalty id0 l.
Proof. reflexivity. Qed.

Lemma present_spec (id0 : string) (l : list Infringement) :
  App.present id0 l = true <-> exists r, In r l /\ id r = id0.
Proof.
  unfold App.present. rewrite existsb_exists.
  split; intros (r & Hr & E); exists r; split; trivial;
    now apply String.eqb_eq.
Qed.

Lemma absent_spec (id0 : string) (l : list Infringement) :
  App.present id0 l = false <-> forall r, In r l -> id r <> id0.
Proof.
  rewrite <- not_true_iff_false, present_spec. split.
  - intros H r Hr E. apply H. now exists r.
  - intros H (r & Hr & E). now apply (H r).
Qed.

Lemma applyPenalty_absent (id0 : string) (l : list Infringement) :
  (forall r, In r l -> id r <> id0) -> App.handleApplyPenalty id0 l = l.
Proof.
  intros H. apply map_fixed. intros r Hr.
  destruct (String.eqb_spec (id r) id0) as [E|E]; [|reflexivity].
  now apply H in Hr.
Qed.

Lemma saveEdit_absent (u : Infringement) (l : list Infringement) :
  (forall r, In r l -> id r <> id u) -> App.handleSaveEdit u l = l.
Proof.
  intros H. apply map_fixed. intros r Hr.
  destruct (String.eqb_spec (id r) (id u)) as [E|E]; [|reflexivity].
  now apply H in Hr.
Qed.

Lemma delete_absent (id0 : string) (l : list Infringement) :
  (forall r, In r l -> id r <> id0) ->
  App.handleDeleteInfringement id0 l = l.
Proof.
  intros H. apply filter_all. intros r Hr.
  apply negb_true_iff, String.eqb_neq. now apply H.
Qed.

Lemma pending_In (l : list Infringement) (r : Infringement) :
  In r (PendingPenalties.pendingPenalties l)
  <-> In r l /\ penaltyApplied r = false /\ penaltyDescription r <> "Warning".
Proof.
  unfold PendingPenalties.pendingPenalties.
  rewrite filter_In, andb_true_iff, !negb_true_iff, String.eqb_neq.
  tauto.
Qed.

(** C3. The pending-penalty table lists exactly the infringements whose
    penalty has not been applied and is not a mere "Warning", in the order
    and multiplicity of the infringement list. *)
Theorem pending_list_exact (l : list Infringement) :
  (forall r, In r (PendingPenalties.pendingPenalties l)
             <-> In r l /\ penaltyApplied r = false
                 /\ penaltyDescription r <> "Warning")
  /\ (forall r, In r l -> penaltyApplied r = true -> ~ In r (PendingPenalties.pendingPenalties l))
  /\ (forall r, In r l -> penaltyDescription r = "Warning" ->
                ~ In r (PendingPenalties.pendingPenalties l))
  /\ (forall l1 l2, l = (l1 ++ l2)%list -> PendingPenalties.pendingPenalties l = (PendingPenalties.pendingPenalties l1 ++ PendingPenalties.pendingPenalties l2)%list)
  /\ (forall r, PendingPenalties.pendingPenalties [r]
                = if penaltyApplied r then []
                  else if (penaltyDescription r =? "Warning")%string then []
                  else [r]).
Proof.
  assert (H : forall r, In r (PendingPenalties.pendingPenalties l)
             <-> In r l /\ penaltyApplied r = false
                 /\ penaltyDescription r <> "Warning").
  { intros r. apply pending_In. }
  split; [exact H|]. split; [|split; [|split]].
  - intros r _ Ha Hp. apply H in Hp. destruct Hp as (_ & Hf & _). congruence.
  - intros r _ Hw Hp. apply H in Hp. tauto.
  - intros l1 l2 ->. apply filter_app.
  - intros r. unfold PendingPenalties.pendingPenalties. simpl.
    destruct (penaltyApplied r); simpl; [reflexivity|].
    destruct (penaltyDescription r =? "Warning")%string; reflexivity.
Qed.

(** C3 on the sample data: of an open "5 Sec", a "Warning" and an applied
    "Stop and Go", only the first is pending. *)
Lemma pending_list_exact_witness :
  In Samples.trackLimits
    (PendingPenalties.pendingPenalties Samples.sampleData)
  /\ PendingPenalties.pendingPenalties Samples.sampleData
     = [Samples.trackLimits].
Proof.
  split; [|reflexivity].
  apply (proj1 (pending_list_exact Samples.sampleData)).
  split; [now left | split; [reflexivity | discriminate]].
Defined.

Lemma apply_idem (id0 : string) (l : list Infringement) :
  App.handleApplyPenalty id0 (App.handleApplyPenalty id0 l) = App.handleApplyPenalty id0 l.
Proof.
  induction l as [|r l IH]; [reflexivity|].
  rewrite !apply_cons, IH. f_equal.
  destruct (id r =? id0)%string eqn:E; simpl; rewrite E; reflexivity.
Qed.

Lemma apply_taken (id0 : string) (l : list Infringement) (r : Infringement) :
  In r (App.handleApplyPenalty id0 l) -> id r = id0 -> penaltyApplied r = true.
Proof.
  unfold App.handleApplyPenalty. rewrite in_map_iff.
  intros (x & Hx & _) Hid.
  destruct (id x =? id0)%string eqn:E; subst r; [reflexivity|].
  apply String.eqb_neq in E. contradiction.
Qed.

Lemma apply_present (id0 : string) (l : list Infringement) :
  App.present id0 (App.handleApplyPenalty id0 l) = App.present id0 l.
Proof.
  induction l as [|r l IH]; [reflexivity|].
  rewrite apply_cons. unfold App.present in *. simpl. rewrite IH. f_equal.
  destruct (id r =? id0)%string eqn:E; simpl; exact E.
Qed.

(** C4. Applying the penalty of an id a second time changes nothing: the
    list after two calls is the list after one, and after either call every
    record carrying the id (there is one whenever there was one before) has
    its penalty marked as taken and is off the pending table. *)
Theorem applyPenalty_idempotent (id0 : string) (l : list Infringement) :
  App.handleApplyPenalty id0 (App.handleApplyPenalty id0 l) = App.handleApplyPenalty id0 l
  /\ (forall r, In r (App.handleApplyPenalty id0 l) -> id r = id0 -> penaltyApplied r = true)
  /\ (forall r, In r (App.handleApplyPenalty id0 (App.handleApplyPenalty id0 l)) -> id r = id0 ->
                penaltyApplied r = true)
  /\ (App.present id0 l = true -> App.present id0 (App.handleApplyPenalty id0 l) = true)
  /\ (forall r, In r (PendingPenalties.pendingPenalties (App.handleApplyPenalty id0 l)) -> id r <> id0).
Proof.
  split; [apply apply_idem|]. split; [|split; [|split]].
  - intros r. apply apply_taken.
  - intros r. apply apply_taken.
  - now rewrite apply_present.
  - intros r Hp Hid.
    apply pending_In in Hp.
    destruct Hp as (Hin & Hf & _).
    rewrite (apply_taken id0 l r Hin Hid) in Hf. discriminate.
Qed.

(** C4 on the sample data: the penalty of record "1", applied twice. *)
Lemma applyPenalty_idempotent_witness :
  App.handleApplyPenalty "1" (App.handleApplyPenalty "1" Samples.sampleData) = App.handleApplyPenalty "1" Samples.sampleData
  /\ App.present "1" (App.handleApplyPenalty "1" Samples.sampleData) = true.
Proof.
  split.
  - apply (applyPenalty_idempotent "1" Samples.sampleData).
  - apply (applyPenalty_idempotent "1" Samples.sampleData). reflexivity.
Defined.

(** C10. Applying a penalty touches at most the applied flag of the records
    carrying the id: position by position, a record with another id is
    unchanged, a record with the id keeps every other field, and a list in
    which no record carries the id is returned as it was. *)
Theorem applyPenalty_frame (id0 : string) (l : list Infringement) :
  Forall2
    (fun r r' =>
       sameButFlag r r'
       /\ (id r <> id0 -> r' = r)
       /\ (id r = id0 -> r' = applied r))
    l (App.handleApplyPenalty id0 l)
  /\ List.length (App.handleApplyPenalty id0 l) = List.length l
  /\ ((forall r, In r l -> id r <> id0) -> App.handleApplyPenalty id0 l = l).
Proof.
  split; [|split].
  - induction l as [|r l IH]; [constructor|].
    rewrite apply_cons. constructor; [|exact IH].
    destruct (String.eqb_spec (id r) id0) as [E|E];
      unfold sameButFlag; simpl; intuition congruence.
  - apply length_map.
  - apply applyPenalty_absent.
Qed.

(** C10 on the sample data, for an id no record carries. *)
Lemma applyPenalty_frame_witness :
  App.handleApplyPenalty "9" Samples.sampleData = Samples.sampleData.
Proof.
  apply (applyPenalty_frame "9" Samples.sampleData).
  intros r [<-|[<-|[<-|[]]]]; discriminate.
Defined.

End LocalState.

(** ** The local-state application: editing, deleting, creating *)

Section LocalStateEdits.

Import Kronos.

Lemma saveEdit_ids (u : Infringement) (l : list Infringement) :
  map id (App.handleSaveEdit u l) = map id l.
Proof.
  unfold App.handleSaveEdit. rewrite map_map. apply map_ext.
  intros r. destruct (String.eqb_spec (id r) (id u)); congruence.
Qed.

Lemma saveEdit_timestamps (u : Infringement) (l : list Infringement) :
  (forall r, In r l -> id r = id u -> timestamp r = timestamp u) ->
  map timestamp (App.handleSaveEdit u l) = map timestamp l.
Proof.
  intros H. unfold App.handleSaveEdit. rewrite map_map. apply map_ext_in.
  intros r Hr. destruct (String.eqb_spec (id r) (id u)) as [E|E];
    [symmetry; now apply H | reflexivity].
Qed.

Lemma unique_by_id (l : list Infringement) (a b : Infringement) :
  NoDup (map id l) -> In a l -> In b l -> id a = id b -> a = b.
Proof.
  induction l as [|r l IH]; simpl; [tauto|].
  intros Hnd Ha Hb E. inversion Hnd as [|x xs Hnotin Hnd']; subst.
  destruct Ha as [->|Ha], Hb as [->|Hb]; trivial.
  - exfalso. apply Hnotin. rewrite E. now apply in_map.
  - exfalso. apply Hnotin. rewrite <- E. now apply in_map.
  - now apply IH.
Qed.

Lemma handleSave_some (inf : Infringement) (f : Fields) (open : bool) :
  anyEmpty f = false ->
  EditInfringementDialog.handleSave (Some inf) f open
  = (Some (mkInfringement (id inf) (f_kartNumber f) (f_turn f) (f_observer f)
             (f_infringement f) (f_penaltyDescription f) (penaltyApplied inf)
             (timestamp inf)),
     false).
Proof. intros H. unfold EditInfringementDialog.handleSave. now rewrite H. Qed.

Lemma handleSave_inv (inf u : Infringement) (f : Fields) (open b : bool) :
  EditInfringementDialog.handleSave (Some inf) f open = (Some u, b) ->
  anyEmpty f = false
  /\ u = mkInfringement (id inf) (f_kartNumber f) (f_turn f) (f_observer f)
           (f_infringement f) (f_penaltyDescription f) (penaltyApplied inf)
           (timestamp inf).
Proof.
  unfold EditInfringementDialog.handleSave.
  destruct (anyEmpty f); intros H; inversion H. now split.
Qed.

(** C9. Editing never changes the id or the timestamp of a record: the
    record the dialog saves carries the edited kart number, turn, observer,
    infringement and penalty, and the id and timestamp (and applied flag) of
    the record being edited; the dialog does save whenever the five fields
    are filled in; and in the list the save leaves every id in place, and
    every timestamp too when the edited record is in the list and ids are
    unique. *)
Theorem update_keeps_id_and_timestamp (inf : Infringement) (f : Fields)
  (open : bool) (l : list Infringement) :
  (forall u b,
     EditInfringementDialog.handleSave (Some inf) f open = (Some u, b) ->
     id u = id inf /\ timestamp u = timestamp inf
     /\ penaltyApplied u = penaltyApplied inf
     /\ kartNumber u = f_kartNumber f /\ turn u = f_turn f
     /\ observer u = f_observer f /\ infringement u = f_infringement f
     /\ penaltyDescription u = f_penaltyDescription f)
  /\ (anyEmpty f = false ->
      exists u, EditInfringementDialog.handleSave (Some inf) f open
                = (Some u, false))
  /\ map id (App.saveDialog (Some inf) f l) = map id l
  /\ (In inf l -> NoDup (map id l) ->
      map timestamp (App.saveDialog (Some inf) f l) = map timestamp l).
Proof.
  split; [|split; [|split]].
  - intros u b H. apply handleSave_inv in H. destruct H as [_ ->].
    simpl. tauto.
  - intros H. eexists. now apply handleSave_some.
  - unfold App.saveDialog.
    destruct (EditInfringementDialog.handleSave (Some inf) f true)
      as [[u|] b]; [apply saveEdit_ids | reflexivity].
  - intros Hin Hnd. unfold App.saveDialog.
    destruct (EditInfringementDialog.handleSave (Some inf) f true)
      as [[u|] b] eqn:E; [|reflexivity].
    apply handleSave_inv in E. destruct E as [_ ->].
    apply saveEdit_timestamps. simpl. intros r Hr Hid.
    now rewrite (unique_by_id l r inf Hnd Hr Hin Hid).
Qed.

(** C9 on the sample data: record "1" edited to another kart and penalty. *)
Lemma update_keeps_id_and_timestamp_witness :
  map timestamp
    (App.saveDialog (Some Samples.trackLimits)
       (mkFields "7" "Turn 1" "A" "Blocking" "10 Sec") Samples.sampleData)
  = map timestamp Samples.sampleData
  /\ map kartNumber
       (App.saveDialog (Some Samples.trackLimits)
          (mkFields "7" "Turn 1" "A" "Blocking" "10 Sec") Samples.sampleData)
     = ["7"; "17"; "88"].
Proof.
  split; [|reflexivity].
  apply (update_keeps_id_and_timestamp Samples.trackLimits
           (mkFields "7" "Turn 1" "A" "Blocking" "10 Sec") true
           Samples.sampleData).
  - now left.
  - repeat constructor; simpl; intuition discriminate.
Defined.

Lemma delete_In (id0 : string) (l : list Infringement) (r : Infringement) :
  In r (App.handleDeleteInfringement id0 l) <-> In r l /\ id r <> id0.
Proof.
  unfold App.handleDeleteInfringement.
  now rewrite filter_In, negb_true_iff, String.eqb_neq.
Qed.

End LocalStateEdits.

(** ** Deleting a record *)

Section Deleting.

Lemma session_delete_In (id0 : Z) (l : list Racelith.InfringementRecord)
  (r : Racelith.InfringementRecord) :
  In r (filter (fun inf => negb (Racelith.id inf =? id0)) l)
  <-> In r l /\ Racelith.id r <> id0.
Proof. now rewrite filter_In, negb_true_iff, Z.eqb_neq. Qed.

(** C6. A successful delete removes the record from the infringement list
    and from the pending-penalty list and keeps every record with another
    id in both: in the session-backed application, where both lists are
    component state, and in the local-state application, where the pending
    table is computed from the infringement list. *)
Theorem delete_removes_everywhere (id0 : Z) (st : Racelith.App.State)
  (id1 : string) (l : list Kronos.Infringement) :
  (forall r,
      In r (Racelith.App.infringements
              (fst (Racelith.App.handleDeleteInfringement
                      (Racelith.App.Resolved tt) id0 st)))
      <-> In r (Racelith.App.infringements st) /\ Racelith.id r <> id0)
  /\ (forall p,
      In p (Racelith.App.pendingPenalties
              (fst (Racelith.App.handleDeleteInfringement
                      (Racelith.App.Resolved tt) id0 st)))
      <-> In p (Racelith.App.pendingPenalties st) /\ Racelith.id p <> id0)
  /\ (forall r,
      In r (Kronos.App.handleDeleteInfringement id1 l)
      <-> In r l /\ Kronos.id r <> id1)
  /\ (forall r,
      In r (Kronos.PendingPenalties.pendingPenalties
              (Kronos.App.handleDeleteInfringement id1 l))
      <-> In r (Kronos.PendingPenalties.pendingPenalties l)
          /\ Kronos.id r <> id1).
Proof.
  split; [|split; [|split]].
  - intros r. simpl. apply session_delete_In.
  - intros p. simpl. apply session_delete_In.
  - intros r. apply delete_In.
  - intros r. rewrite !pending_In, delete_In. tauto.
Qed.

(** C6 on the sample data: record "2" deleted. *)
Lemma delete_removes_everywhere_witness :
  In Samples.trackLimits
    (Kronos.PendingPenalties.pendingPenalties
       (Kronos.App.handleDeleteInfringement "2" Samples.sampleData))
  /\ In Samples.kart5
       (Racelith.App.infringements
          (fst (Racelith.App.handleDeleteInfringement
                  (Racelith.App.Resolved tt) 1
                  (Racelith.App.mkState [Samples.kart0; Samples.kart5]
                     [Samples.kart0; Samples.kart5])))).
Proof.
  split.
  - apply (delete_removes_everywhere 1
             (Racelith.App.mkState [Samples.kart0; Samples.kart5]
                [Samples.kart0; Samples.kart5])
             "2" Samples.sampleData).
    split; [now left | discriminate].
  - apply (delete_removes_everywhere 1
             (Racelith.App.mkState [Samples.kart0; Samples.kart5]
                [Samples.kart0; Samples.kart5])
             "2" Samples.sampleData).
    split; [right; now left | discriminate].
Defined.

(** A delete the server rejects changes neither list. *)
Lemma delete_rejected (message : string) (id0 : Z) (st : Racelith.App.State) :
  fst (Racelith.App.handleDeleteInfringement
         (Racelith.App.Rejected message) id0 st) = st.
Proof. reflexivity. Qed.

End Deleting.

(** ** Operations on an id that no record carries *)

Section AbsentId.

Import Kronos.

(** C7 fails on the sample data: applying a penalty to, saving an edit of
    and deleting the absent id "9" all return, with the list as it was: none of
    them fails with [NotFound]. *)
Lemma absent_id_returns :
  App.present "9" Samples.sampleData = false
  /\ App.applyPenalty "9" Samples.sampleData
     = App.Returned Samples.sampleData
  /\ App.update
       (mkInfringement "9" "5" "Turn 2" "A" "Collision" "5 Sec" false 0)
       Samples.sampleData
     = App.Returned Samples.sampleData
  /\ App.delete "9" Samples.sampleData = App.Returned Samples.sampleData
  /\ App.applyPenalty "9" Samples.sampleData <> App.Thrown App.NotFound
  /\ App.delete "9" Samples.sampleData <> App.Thrown App.NotFound.
Proof. repeat split; discriminate. Qed.

(** C7, as the code has it.  On an id that no record carries, applying a
    penalty, saving an edit and deleting raise no error: each call returns
    and leaves the list of infringements exactly as it was. *)
Theorem absent_id_is_noop (id0 : string) (u : Infringement)
  (l : list Infringement) :
  App.present id0 l = false ->
  id u = id0 ->
  App.applyPenalty id0 l = App.Returned l
  /\ App.update u l = App.Returned l
  /\ App.delete id0 l = App.Returned l.
Proof.
  intros H <-. rewrite absent_spec in H.
  unfold App.applyPenalty, App.update, App.delete.
  now rewrite applyPenalty_absent, saveEdit_absent, delete_absent.
Qed.

Lemma absent_id_is_noop_witness :
  App.applyPenalty "9" Samples.sampleData = App.Returned Samples.sampleData
  /\ App.update
       (mkInfringement "9" "5" "Turn 2" "A" "Collision" "5 Sec" false 0)
       Samples.sampleData
     = App.Returned Samples.sampleData
  /\ App.delete "9" Samples.sampleData = App.Returned Samples.sampleData.
Proof.
  apply (absent_id_is_noop "9"
           (mkInfringement "9" "5" "Turn 2" "A" "Collision" "5 Sec" false 0)
           Samples.sampleData); reflexivity.
Defined.

End AbsentId.

(** ** Creating a record *)

Section Creating.

Import Kronos.

Lemma anyEmpty_false (f : Fields) :
  anyEmpty f = false
  <-> f_kartNumber f <> "" /\ f_turn f <> "" /\ f_observer f <> ""
      /\ f_infringement f <> "" /\ f_penaltyDescription f <> "".
Proof.
  unfold anyEmpty, falsy, JS.truthy.
  rewrite !orb_false_iff, !negb_false_iff, !negb_true_iff, !String.eqb_neq.
  tauto.
Qed.

Lemma anyEmpty_true (f : Fields) :
  anyEmpty f = true
  <-> f_kartNumber f = "" \/ f_turn f = "" \/ f_observer f = ""
      \/ f_infringement f = "" \/ f_penaltyDescription f = "".
Proof.
  unfold anyEmpty, falsy, JS.truthy.
  rewrite !orb_true_iff, !negb_true_iff, !negb_false_iff, !String.eqb_eq.
  tauto.
Qed.

(** C8 fails on a form with kart number, observer and infringement filled
    in and the turn left empty: it is not submitted: nothing reaches [onSubmit], the list
    is unchanged and the form keeps its content.  The same happens when
    only the penalty is left empty. *)
Lemma submit_without_turn_creates_nothing :
  InfringementForm.handleSubmit 5000 (mkFields "42" "" "J" "Blocking" "5 Sec")
  = (None, mkFields "42" "" "J" "Blocking" "5 Sec")
  /\ App.submitForm 5000 "u-1" (mkFields "42" "" "J" "Blocking" "5 Sec")
       Samples.sampleData
     = (Samples.sampleData, mkFields "42" "" "J" "Blocking" "5 Sec")
  /\ App.submitForm 5000 "u-1" (mkFields "42" "Turn 3" "J" "Blocking" "")
       Samples.sampleData
     = (Samples.sampleData, mkFields "42" "Turn 3" "J" "Blocking" "").
Proof. repeat split. Qed.

(** C8, as the code has it.  The form requires all five of kart number,
    turn, observer, infringement and penalty description: when all five are
    non-empty the submit creates one record, at the head of the list, with
    those fields, the fresh id, the penalty not applied and the current
    time, and clears the form; when any of the five is empty the submit is
    dropped: nothing is created and the form is left as it was. *)
Theorem creation_requires_all_fields (now : Z) (uuid : string) (f : Fields)
  (l : list Infringement) :
  (f_kartNumber f <> "" -> f_turn f <> "" -> f_observer f <> "" ->
   f_infringement f <> "" -> f_penaltyDescription f <> "" ->
   App.submitForm now uuid f l
   = (mkInfringement uuid (f_kartNumber f) (f_turn f) (f_observer f)
        (f_infringement f) (f_penaltyDescription f) false now :: l,
      InfringementForm.cleared))
  /\ (f_kartNumber f = "" \/ f_turn f = "" \/ f_observer f = ""
      \/ f_infringement f = "" \/ f_penaltyDescription f = "" ->
      InfringementForm.handleSubmit now f = (None, f)
      /\ App.submitForm now uuid f l = (l, f)).
Proof.
  split.
  - intros H1 H2 H3 H4 H5.
    assert (E : anyEmpty f = false) by (apply anyEmpty_false; tauto).
    unfold App.submitForm, InfringementForm.handleSubmit. rewrite E.
    reflexivity.
  - intros H. apply anyEmpty_true in H.
    unfold App.submitForm, InfringementForm.handleSubmit. rewrite H.
    split; reflexivity.
Qed.

Lemma creation_requires_all_fields_witness :
  App.submitForm 5000 "u-1" (mkFields "7" "Turn 2" "J" "Blocking" "5 Sec") []
  = ([mkInfringement "u-1" "7" "Turn 2" "J" "Blocking" "5 Sec" false 5000],
     InfringementForm.cleared)
  /\ App.submitForm 5000 "u-1" (mkFields "7" "" "J" "Blocking" "5 Sec") []
     = ([], mkFields "7" "" "J" "Blocking" "5 Sec").
Proof.
  split.
  - apply (creation_requires_all_fields 5000 "u-1"
             (mkFields "7" "Turn 2" "J" "Blocking" "5 Sec") []);
      discriminate.
  - apply (creation_requires_all_fields 5000 "u-1"
             (mkFields "7" "" "J" "Blocking" "5 Sec") []).
    right. now left.
Defined.

End Creating.

(** ** Numerals: [Number] reads back what [toString] prints *)

Section Numerals.

Import JS Numeral.

Lemma digits_uint (d : Decimal.uint) : forall acc n,
  digits 10 acc n (list_ascii_of_string (NilEmpty.string_of_uint d))
  = (uintValue acc d, (n + Decimal.nb_digits d)%nat, []).
Proof.
  induction d; intros acc n;
    cbn [NilEmpty.string_of_uint list_ascii_of_string digits uintValue
         Decimal.nb_digits];
    try (now rewrite Nat.add_0_r);
    (change (digitValue 10 _) with (Some 0)
     || change (digitValue 10 _) with (Some 1)
     || change (digitValue 10 _) with (Some 2)
     || change (digitValue 10 _) with (Some 3)
     || change (digitValue 10 _) with (Some 4)
     || change (digitValue 10 _) with (Some 5)
     || change (digitValue 10 _) with (Some 6)
     || change (digitValue 10 _) with (Some 7)
     || change (digitValue 10 _) with (Some 8)
     || change (digitValue 10 _) with (Some 9));
    cbv iota; rewrite IHd; now rewrite Nat.add_succ_r.
Qed.

Lemma uintValue_pos (d : Decimal.uint) : forall p,
  uintValue (Z.pos p) d = Z.pos (Pos.of_uint_acc d p).
Proof.
  induction d; intros p; cbn [uintValue Pos.of_uint_acc]; try reflexivity;
    rewrite <- IHd; f_equal; lia.
Qed.

Lemma uintValue_0 (d : Decimal.uint) :
  uintValue 0 d = Z.of_N (Pos.of_uint d).
Proof.
  induction d; cbn [uintValue Pos.of_uint]; try reflexivity; try exact IHd;
    apply (uintValue_pos d).
Qed.

Lemma uintValue_to_uint (p : positive) :
  uintValue 0 (Pos.to_uint p) = Z.pos p.
Proof. now rewrite uintValue_0, DecimalPos.Unsigned.of_to. Qed.

Lemma trimEnd_uint (d : Decimal.uint) :
  trimEnd (NilEmpty.string_of_uint d) = NilEmpty.string_of_uint d.
Proof.
  induction d; cbn [NilEmpty.string_of_uint trimEnd]; try reflexivity;
    rewrite IHd; reflexivity.
Qed.

Lemma trim_uint (d : Decimal.uint) :
  trim (NilEmpty.string_of_uint d) = NilEmpty.string_of_uint d.
Proof.
  unfold trim.
  replace (trimStart (NilEmpty.string_of_uint d))
    with (NilEmpty.string_of_uint d) by (destruct d; reflexivity).
  apply trimEnd_uint.
Qed.

Lemma nonDecimal_uint (d : Decimal.uint) :
  nonDecimalLiteral (list_ascii_of_string (NilEmpty.string_of_uint d)) = None.
Proof.
  destruct d as [|d| | | | | | | | |]; try reflexivity.
  destruct d; reflexivity.
Qed.

Lemma decimalLiteral_uint (d : Decimal.uint) (neg : bool) :
  d <> Decimal.Nil ->
  decimalLiteral
    ((if neg then ["-"%char] else [])
     ++ list_ascii_of_string (NilEmpty.string_of_uint d))
  = Finite (inject_Z (if neg then - uintValue 0 d else uintValue 0 d)).
Proof.
  intros Hd. unfold decimalLiteral.
  assert (Hs : sign ((if neg then ["-"%char] else [])
                     ++ list_ascii_of_string (NilEmpty.string_of_uint d))
               = (neg, list_ascii_of_string (NilEmpty.string_of_uint d))).
  { destruct neg; [reflexivity|]. destruct d; reflexivity || contradiction. }
  rewrite Hs, string_of_list_ascii_of_string.
  replace (NilEmpty.string_of_uint d =? "Infinity")%string with false
    by (destruct d; reflexivity).
  unfold unsignedDecimal. rewrite digits_uint.
  destruct (Decimal.nb_digits d) eqn:En;
    [destruct d; discriminate || contradiction|].
  cbn. unfold scale. cbn. rewrite Z.mul_1_r. reflexivity.
Qed.

(** The kart number printed and read back is the kart number. *)
Lemma Number_toString (z : Z) : Number (toString z) = Finite (inject_Z z).
Proof.
  destruct z as [|p|p]; [reflexivity| |];
    unfold toString, Number; cbn [Z.to_int NilZero.string_of_int];
    pose proof (DecimalPos.Unsigned.to_uint_nonnil p) as Hn;
    assert (E : NilZero.string_of_uint (Pos.to_uint p)
                = NilEmpty.string_of_uint (Pos.to_uint p))
      by (destruct (Pos.to_uint p); reflexivity || contradiction);
    rewrite E.
  - rewrite trim_uint.
    destruct (list_ascii_of_string
                (NilEmpty.string_of_uint (Pos.to_uint p))) eqn:Ecs.
    { destruct (Pos.to_uint p); discriminate || contradiction. }
    rewrite <- Ecs, nonDecimal_uint.
    pose proof (decimalLiteral_uint _ false Hn) as Hd. cbn [app] in Hd.
    rewrite Hd, uintValue_to_uint. reflexivity.
  - assert (Et : trim (String "-" (NilEmpty.string_of_uint (Pos.to_uint p)))
                 = String "-" (NilEmpty.string_of_uint (Pos.to_uint p))).
    { unfold trim. cbn [trimStart].
      change (isWhiteSpace "-") with false. cbv iota.
      cbn [trimEnd]. change (isWhiteSpace "-") with false.
      cbn [andb]. cbv iota. now rewrite trimEnd_uint. }
    rewrite Et. cbn [list_ascii_of_string].
    change (nonDecimalLiteral ("-"%char :: ?x)) with (@None Z).
    pose proof (decimalLiteral_uint _ true Hn) as Hd. cbn [app] in Hd.
    rewrite Hd, uintValue_to_uint. reflexivity.
Qed.

End Numerals.

(** ** The kart-number filter *)

Section KartFilter.

Import Racelith.

(** The test both filters apply to a row, for the search value [sv]. *)
Lemma kart_match (sv : string) (k : Z) :
  (JS.toString k =? sv)%string
  || JS.strictEquals (JS.Number (JS.toString k)) (JS.Number sv) = true
  <-> exists q, JS.Number sv = JS.Finite q /\ (q == inject_Z k)%Q.
Proof.
  rewrite orb_true_iff, String.eqb_eq, Number_toString. split.
  - intros [<- | H].
    + exists (inject_Z k). rewrite Number_toString. split; reflexivity.
    + destruct (JS.Number sv) as [| |q]; try discriminate H.
      exists q. split; [reflexivity|].
      simpl in H. apply Qeq_bool_iff in H. now symmetry.
  - intros (q & -> & Hq). right. simpl.
    apply Qeq_bool_iff. now symmetry.
Qed.

(** With nothing in the search box the table shows every record. *)
Lemma filtered_empty (l : list InfringementRecord) :
  InfringementLog.filteredInfringements "" l = l.
Proof. reflexivity. Qed.

(** With something in the box, a row is kept exactly when the trimmed input
    reads, as a number, as the row's kart number. *)
Lemma filtered_In (s : string) (l : list InfringementRecord)
  (r : InfringementRecord) :
  s <> "" ->
  In r (InfringementLog.filteredInfringements s l)
  <-> In r l
      /\ exists q, JS.Number (JS.trim s) = JS.Finite q
                   /\ (q == inject_Z (kart_number r))%Q.
Proof.
  intros Hs. unfold InfringementLog.filteredInfringements, JS.truthy.
  apply String.eqb_neq in Hs. rewrite Hs. simpl.
  now rewrite filter_In, kart_match.
Qed.

(** Input that does not read as a number matches no record. *)
Lemma filtered_NaN (s : string) (l : list InfringementRecord) :
  s <> "" -> JS.Number (JS.trim s) = JS.NaN ->
  InfringementLog.filteredInfringements s l = [].
Proof.
  intros Hs Hn. unfold InfringementLog.filteredInfringements, JS.truthy.
  apply String.eqb_neq in Hs. rewrite Hs. simpl.
  apply filter_none. intros r _. apply not_true_iff_false.
  rewrite kart_match, Hn. intros (q & E & _). discriminate E.
Qed.

(** Input made of white space only is not empty for the table: it is
    filtered on the number read from the empty string, which is zero. *)
Lemma filtered_blank (s : string) (l : list InfringementRecord)
  (r : InfringementRecord) :
  s <> "" -> JS.trim s = "" ->
  In r (InfringementLog.filteredInfringements s l)
  <-> In r l /\ kart_number r = 0.
Proof.
  intros Hs Ht. rewrite (filtered_In s l r Hs), Ht.
  change (JS.Number "") with (JS.Finite 0). split.
  - intros (Hr & q & E & Hq). split; [exact Hr|].
    inversion E; subst q. unfold Qeq, inject_Z in Hq. simpl in Hq. lia.
  - intros (Hr & Hk). split; [exact Hr|]. exists 0%Q.
    split; [reflexivity|]. now rewrite Hk.
Qed.

(** The pop-up window tests the trimmed input instead: white space only
    counts as an empty box there, and every record is shown. *)
Lemma popup_blank (value : string) (d : list InfringementRecord) :
  JS.trim value = "" -> Popup.refreshTable_rows value d = d.
Proof. intros H. unfold Popup.refreshTable_rows. now rewrite H. Qed.

Lemma popup_In (value : string) (d : list InfringementRecord)
  (r : InfringementRecord) :
  JS.toLowerCase (JS.trim value) <> "" ->
  In r (Popup.refreshTable_rows value d)
  <-> In r d
      /\ exists q, JS.Number (JS.toLowerCase (JS.trim value)) = JS.Finite q
                   /\ (q == inject_Z (kart_number r))%Q.
Proof.
  intros Hs. unfold Popup.refreshTable_rows, JS.truthy.
  apply String.eqb_neq in Hs. rewrite Hs. simpl.
  now rewrite filter_In, kart_match.
Qed.

(** Searching "42" keeps kart 42 and drops kart 420, also with blanks
    around the number; letters match nothing; both views agree on these.
    The match is on the value, whatever numeral the input uses. *)
Lemma filter_examples :
  InfringementLog.filteredInfringements "42" [Samples.kart42; Samples.kart420]
  = [Samples.kart42]
  /\ InfringementLog.filteredInfringements " 42 "
       [Samples.kart42; Samples.kart420]
     = [Samples.kart42]
  /\ InfringementLog.filteredInfringements "abc"
       [Samples.kart0; Samples.kart42; Samples.kart420]
     = []
  /\ Popup.refreshTable_rows " 42 " [Samples.kart42; Samples.kart420]
     = [Samples.kart42]
  /\ Popup.refreshTable_rows "abc"
       [Samples.kart0; Samples.kart42; Samples.kart420]
     = []
  /\ InfringementLog.filteredInfringements "42.0"
       [Samples.kart42; Samples.kart420]
     = [Samples.kart42]
  /\ InfringementLog.filteredInfringements "4.2e2"
       [Samples.kart42; Samples.kart420]
     = [Samples.kart420]
  /\ Popup.refreshTable_rows "0X2A" [Samples.kart42; Samples.kart420]
     = [Samples.kart42].
Proof. repeat split. Qed.

(** C5, at a search box holding one space.  The trimmed input is empty.
    The table does not treat it as an empty search: it tests the box before
    trimming, reads the trimmed text as the number zero, keeps the record of
    kart 0 and drops the record of kart 5.  The pop-up window, which trims
    before testing, shows both records. *)
Theorem kart_filter_blank_search :
  JS.trim " " = ""
  /\ JS.Number (JS.trim " ") = JS.Finite 0
  /\ InfringementLog.filteredInfringements " " [Samples.kart0; Samples.kart5]
     = [Samples.kart0]
  /\ Popup.refreshTable_rows " " [Samples.kart0; Samples.kart5]
     = [Samples.kart0; Samples.kart5]
  /\ InfringementLog.filteredInfringements "" [Samples.kart0; Samples.kart5]
     = [Samples.kart0; Samples.kart5].
Proof. repeat split. Qed.

End KartFilter.

(** ** The local-state application: how the handlers compose *)

Section KronosComposition.

Import Kronos KronosViews.

Lemma delete_cons (id0 : string) (r : Infringement) (l : list Infringement) :
  App.handleDeleteInfringement id0 (r :: l)
  = if (id r =? id0)%string then App.handleDeleteInfringement id0 l
    else r :: App.handleDeleteInfringement id0 l.
Proof.
  unfold App.handleDeleteInfringement. simpl.
  destruct (id r =? id0)%string; reflexivity.
Qed.

(** X1. Applying a penalty takes exactly the records with that id off the
    pending table: the table afterwards is the table before without them,
    in the same order. *)
Theorem pending_after_apply (id0 : string) (l : list Infringement) :
  PendingPenalties.pendingPenalties (App.handleApplyPenalty id0 l)
  = App.handleDeleteInfringement id0 (PendingPenalties.pendingPenalties l).
Proof.
  induction l as [|r l IH]; [reflexivity|].
  rewrite apply_cons. unfold PendingPenalties.pendingPenalties in *.
  cbn [filter]. destruct (id r =? id0)%string eqn:E.
  - cbn [penaltyApplied negb andb]. rewrite IH.
    destruct (negb (penaltyApplied r)
              && negb (penaltyDescription r =? "Warning")%string);
      [rewrite delete_cons, E|]; reflexivity.
  - rewrite IH.
    destruct (negb (penaltyApplied r)
              && negb (penaltyDescription r =? "Warning")%string);
      [rewrite delete_cons, E|]; reflexivity.
Qed.

(** X2. A submitted form reaches the pending table at once, at its head, unless
    the penalty chosen is a "Warning", which never does. *)
Theorem pending_after_submit (now : Z) (uuid : string) (f : Fields)
  (l : list Infringement) :
  anyEmpty f = false ->
  PendingPenalties.pendingPenalties (fst (App.submitForm now uuid f l))
  = if (f_penaltyDescription f =? "Warning")%string
    then PendingPenalties.pendingPenalties l
    else mkInfringement uuid (f_kartNumber f) (f_turn f) (f_observer f)
           (f_infringement f) (f_penaltyDescription f) false now
         :: PendingPenalties.pendingPenalties l.
Proof.
  intros H. unfold App.submitForm, InfringementForm.handleSubmit.
  rewrite H. simpl.
  destruct (f_penaltyDescription f =? "Warning")%string; reflexivity.
Qed.

Lemma pending_after_submit_witness :
  PendingPenalties.pendingPenalties
    (fst (App.submitForm 5000 "u-1"
            (mkFields "7" "Turn 2" "J" "Blocking" "5 Sec")
            Samples.sampleData))
  = [mkInfringement "u-1" "7" "Turn 2" "J" "Blocking" "5 Sec" false 5000;
     Samples.trackLimits].
Proof.
  apply (pending_after_submit 5000 "u-1"
           (mkFields "7" "Turn 2" "J" "Blocking" "5 Sec")
           Samples.sampleData).
  reflexivity.
Defined.

(** X3. Deleting composes with itself and with applying: a delete repeated is
    a delete, deletes of two ids may be swapped, and applying a penalty to
    an id before or after deleting that id leaves what the delete alone
    leaves. *)
Theorem delete_composition (id0 id1 : string) (l : list Infringement) :
  App.handleDeleteInfringement id0 (App.handleDeleteInfringement id0 l)
  = App.handleDeleteInfringement id0 l
  /\ App.handleDeleteInfringement id0 (App.handleDeleteInfringement id1 l)
     = App.handleDeleteInfringement id1 (App.handleDeleteInfringement id0 l)
  /\ App.handleDeleteInfringement id0 (App.handleApplyPenalty id0 l)
     = App.handleDeleteInfringement id0 l
  /\ App.handleApplyPenalty id0 (App.handleDeleteInfringement id0 l)
     = App.handleDeleteInfringement id0 l.
Proof.
  split; [|split; [|split]].
  - apply delete_absent. intros r Hr. now apply delete_In in Hr.
  - induction l as [|r l IH]; [reflexivity|].
    rewrite !delete_cons.
    destruct (id r =? id0)%string eqn:E0, (id r =? id1)%string eqn:E1;
      rewrite ?delete_cons, ?E0, ?E1, IH; reflexivity.
  - induction l as [|r l IH]; [reflexivity|].
    rewrite apply_cons.
    destruct (id r =? id0)%string eqn:E; rewrite !delete_cons;
      unfold Frame.applied; cbn [id]; rewrite E, IH; reflexivity.
  - apply applyPenalty_absent. intros r Hr. now apply delete_In in Hr.
Qed.

(** X4. Saving an edit touches the records carrying the id of the saved record
    and no other: position by position, a record with another id is
    unchanged and a record with that id becomes the saved one. *)
Theorem saveEdit_frame (u : Infringement) (l : list Infringement) :
  Forall2
    (fun r r' => (id r <> id u -> r' = r) /\ (id r = id u -> r' = u))
    l (App.handleSaveEdit u l)
  /\ List.length (App.handleSaveEdit u l) = List.length l.
Proof.
  split; [|apply length_map].
  induction l as [|r l IH]; [constructor|].
  unfold App.handleSaveEdit in *. cbn [map]. constructor; [|exact IH].
  destruct (String.eqb_spec (id r) (id u)); split; congruence.
Qed.

Lemma saveEdit_frame_witness :
  List.length (App.handleSaveEdit Samples.blocking Samples.sampleData) = 3%nat.
Proof.
  exact (proj2 (saveEdit_frame Samples.blocking Samples.sampleData)).
Defined.





(** X6. The record the dialog saves carries the applied flag of the record it
    was opened on: whatever was applied to that id in the list since then is
    overwritten by the save. *)
Theorem save_restores_applied_flag (inf : Infringement) (f : Fields)
  (l : list Infringement) (r : Infringement) :
  anyEmpty f = false ->
  In r (App.saveDialog (Some inf) f (App.handleApplyPenalty (id inf) l)) ->
  id r = id inf ->
  penaltyApplied r = penaltyApplied inf.
Proof.
  intros Hf Hr Hid. unfold App.saveDialog in Hr.
  rewrite (handleSave_some inf f true Hf) in Hr.
  unfold App.handleSaveEdit in Hr. apply in_map_iff in Hr.
  destruct Hr as (x & Hx & _). cbn [id] in Hx.
  destruct (String.eqb_spec (id x) (id inf)) as [E|E]; subst r;
    [reflexivity | contradiction].
Qed.

Lemma save_restores_applied_flag_witness :
  In Samples.trackLimits
    (PendingPenalties.pendingPenalties
       (App.saveDialog (Some Samples.trackLimits)
          (syncFields (Some Samples.trackLimits) InfringementForm.cleared)
          (App.handleApplyPenalty "1" Samples.sampleData)))
  /\ penaltyApplied Samples.trackLimits = false.
Proof.
  split; [now left|].
  symmetry.
  apply (save_restores_applied_flag Samples.trackLimits
           (syncFields (Some Samples.trackLimits) InfringementForm.cleared)
           Samples.sampleData Samples.trackLimits);
    [reflexivity | now left | reflexivity].
Defined.

(** X7. The earlier log shows "Pending" on every row of the pending table; the
    rows it shows as "Pending" that the table leaves out are the warnings
    not yet applied. *)
Theorem badge_and_pending_table (l : list Infringement) (r : Infringement) :
  In r l ->
  (In r (PendingPenalties.pendingPenalties l) -> badge r = "Pending")
  /\ (badge r = "Pending" /\ ~ In r (PendingPenalties.pendingPenalties l)
      <-> penaltyApplied r = false /\ penaltyDescription r = "Warning")
  /\ (badge r = "Applied" -> ~ In r (PendingPenalties.pendingPenalties l)).
Proof.
  intros Hin. rewrite pending_In. unfold badge.
  destruct (penaltyApplied r);
    destruct (String.eqb_spec (penaltyDescription r) "Warning");
    intuition (discriminate || congruence).
Qed.

Lemma badge_and_pending_table_witness :
  badge Samples.trackLimits = "Pending".
Proof.
  apply (proj1 (badge_and_pending_table Samples.sampleData
                  Samples.trackLimits (or_introl eq_refl))).
  now left.
Defined.

End KronosComposition.

(** ** The local-state application: what every handler preserves *)

Section KronosInvariants.

Import Kronos KronosViews.

Lemma submitForm_list (now : Z) (uuid : string) (f : Fields)
  (l : list Infringement) :
  fst (App.submitForm now uuid f l)
  = if anyEmpty f then l
    else mkInfringement uuid (f_kartNumber f) (f_turn f) (f_observer f)
           (f_infringement f) (f_penaltyDescription f) false now :: l.
Proof.
  unfold App.submitForm, InfringementForm.handleSubmit.
  destruct (anyEmpty f); reflexivity.
Qed.

Lemma apply_ids (id0 : string) (l : list Infringement) :
  map id (App.handleApplyPenalty id0 l) = map id l.
Proof.
  unfold App.handleApplyPenalty. rewrite map_map. apply map_ext.
  intros r. destruct (id r =? id0)%string; reflexivity.
Qed.

Lemma saveDialog_ids (current : option Infringement) (f : Fields)
  (l : list Infringement) :
  map id (App.saveDialog current f l) = map id l.
Proof.
  unfold App.saveDialog.
  destruct (EditInfringementDialog.handleSave current f true) as [[u|] b];
    [apply saveEdit_ids | reflexivity].
Qed.

Lemma delete_ids_unique (id0 : string) (l : list Infringement) :
  NoDup (map id l) -> NoDup (map id (App.handleDeleteInfringement id0 l)).
Proof.
  induction l as [|r l IH]; intros H; [constructor|].
  inversion H as [|x xs Hnotin Hnd]; subst. rewrite delete_cons.
  destruct (id r =? id0)%string; [now apply IH|].
  cbn [map]. constructor; [|now apply IH].
  intros Hin. apply Hnotin. apply in_map_iff in Hin.
  destruct Hin as (x & Hx & Hin). apply delete_In in Hin.
  rewrite <- Hx. now apply in_map.
Qed.

(** X8. Ids stay unique: applying a penalty, saving an edit and deleting never
    introduce a duplicate id, and neither does a new record whose id is not
    yet in the list. *)
Theorem handlers_keep_ids_unique (now : Z) (uuid id0 : string) (f : Fields)
  (current : option Infringement) (l : list Infringement) :
  NoDup (map id l) ->
  (~ In uuid (map id l) ->
   NoDup (map id (fst (App.submitForm now uuid f l))))
  /\ NoDup (map id (App.saveDialog current f l))
  /\ NoDup (map id (App.handleApplyPenalty id0 l))
  /\ NoDup (map id (App.handleDeleteInfringement id0 l)).
Proof.
  intros H. split; [|split; [|split]].
  - intros Hfresh. rewrite submitForm_list.
    destruct (anyEmpty f); [exact H|]. cbn [map id]. now constructor.
  - now rewrite saveDialog_ids.
  - now rewrite apply_ids.
  - now apply delete_ids_unique.
Qed.

Lemma handlers_keep_ids_unique_witness :
  NoDup (map id (fst (App.submitForm 5000 "u-1"
                        (mkFields "7" "Turn 2" "J" "Blocking" "5 Sec")
                        Samples.sampleData))).
Proof.
  apply (handlers_keep_ids_unique 5000 "u-1" "1"
           (mkFields "7" "Turn 2" "J" "Blocking" "5 Sec") None
           Samples.sampleData).
  - repeat constructor; simpl; intuition discriminate.
  - simpl. intuition discriminate.
Defined.

Lemma complete_of_fields (uuid : string) (f : Fields) (a : bool) (t : Z) :
  complete (mkInfringement uuid (f_kartNumber f) (f_turn f) (f_observer f)
              (f_infringement f) (f_penaltyDescription f) a t)
  = negb (anyEmpty f).
Proof.
  unfold anyEmpty, complete, falsy. simpl.
  destruct (JS.truthy (f_kartNumber f)), (JS.truthy (f_turn f)),
    (JS.truthy (f_observer f)), (JS.truthy (f_infringement f)),
    (JS.truthy (f_penaltyDescription f)); reflexivity.
Qed.

(** X9. No handler lets an empty field in: if every record of the list has its
    kart number, turn, observer, infringement and penalty filled in, so has
    every record after a submit, a save, an applied penalty or a delete,
    whatever the form or the dialog holds. *)
Theorem handlers_keep_fields_filled (now : Z) (uuid id0 : string)
  (f : Fields) (current : option Infringement) (l : list Infringement) :
  Forall (fun r => complete r = true) l ->
  Forall (fun r => complete r = true) (fst (App.submitForm now uuid f l))
  /\ Forall (fun r => complete r = true) (App.saveDialog current f l)
  /\ Forall (fun r => complete r = true) (App.handleApplyPenalty id0 l)
  /\ Forall (fun r => complete r = true)
       (App.handleDeleteInfringement id0 l).
Proof.
  intros H. split; [|split; [|split]].
  - rewrite submitForm_list.
    destruct (anyEmpty f) eqn:E; [exact H|]. constructor; [|exact H].
    now rewrite complete_of_fields, E.
  - unfold App.saveDialog, EditInfringementDialog.handleSave.
    destruct current as [inf|]; [|exact H].
    destruct (anyEmpty f) eqn:E; [exact H|].
    unfold App.handleSaveEdit. rewrite Forall_forall in *.
    intros r Hr. apply in_map_iff in Hr. destruct Hr as (x & <- & Hx).
    destruct (id x =? _)%string; [|now apply H].
    now rewrite complete_of_fields, E.
  - unfold App.handleApplyPenalty. rewrite Forall_forall in *.
    intros r Hr. apply in_map_iff in Hr. destruct Hr as (x & <- & Hx).
    destruct (id x =? id0)%string; [|now apply H].
    rewrite <- (H x Hx). reflexivity.
  - rewrite Forall_forall in *. intros r Hr. apply delete_In in Hr.
    now apply H.
Qed.

Lemma handlers_keep_fields_filled_witness :
  Forall (fun r => complete r = true)
    (App.saveDialog (Some Samples.blocking)
       (mkFields "7" "Turn 2" "J" "Blocking" "5 Sec") Samples.sampleData).
Proof.
  apply (handlers_keep_fields_filled 5000 "u-1" "1"
           (mkFields "7" "Turn 2" "J" "Blocking" "5 Sec")
           (Some Samples.blocking) Samples.sampleData).
  repeat constructor.
Defined.

Lemma sorted_map_same_time (g : Infringement -> Infringement)
  (l : list Infringement) :
  (forall r, timestamp (g r) = timestamp r) ->
  StronglySorted notOlder l -> StronglySorted notOlder (map g l).
Proof.
  intros Hg. induction 1 as [|a l Hs IH Ha]; cbn [map]; constructor; trivial.
  rewrite Forall_forall in *. intros r Hr. apply in_map_iff in Hr.
  destruct Hr as (x & <- & Hx). unfold notOlder. rewrite !Hg.
  now apply Ha.
Qed.

(** X10. Most recent first is kept: a list in which no record is older than any
    record after it stays so when a penalty is applied or a record deleted,
    and when a record is submitted at a time no earlier than the records
    already there. *)
Theorem handlers_keep_recent_first (now : Z) (uuid id0 : string) (f : Fields)
  (l : list Infringement) :
  StronglySorted notOlder l ->
  (Forall (fun r => timestamp r <= now) l ->
   StronglySorted notOlder (fst (App.submitForm now uuid f l)))
  /\ StronglySorted notOlder (App.handleApplyPenalty id0 l)
  /\ StronglySorted notOlder (App.handleDeleteInfringement id0 l).
Proof.
  intros H. split; [|split].
  - intros Hnow. rewrite submitForm_list.
    destruct (anyEmpty f); [exact H|]. constructor; [exact H|].
    exact Hnow.
  - apply sorted_map_same_time; [|exact H].
    intros r. destruct (id r =? id0)%string; reflexivity.
  - induction H as [|a l Hs IH Ha]; [constructor|].
    rewrite delete_cons. destruct (id a =? id0)%string; [exact IH|].
    constructor; [exact IH|]. rewrite Forall_forall in *.
    intros r Hr. apply delete_In in Hr. now apply Ha.
Qed.

Lemma handlers_keep_recent_first_witness :
  StronglySorted notOlder
    (fst (App.submitForm 5000 "u-1"
            (mkFields "7" "Turn 2" "J" "Blocking" "5 Sec")
            [Samples.dangerous; Samples.blocking; Samples.trackLimits])).
Proof.
  apply (handlers_keep_recent_first 5000 "u-1" "1"
           (mkFields "7" "Turn 2" "J" "Blocking" "5 Sec")
           [Samples.dangerous; Samples.blocking; Samples.trackLimits]).
  - repeat constructor; unfold notOlder; simpl; lia.
  - repeat constructor; simpl; lia.
Defined.

End KronosInvariants.

(** ** Status derivation: the clock and the window *)

Section StatusAndClock.

Import Racelith.

Lemma statusLabel_Expired (W : Q) (now : Z) (r : InfringementRecord) :
  InfringementLog.statusLabel W now r = "Expired"
  <-> isString (penalty_description r) "Warning" = true
      /\ gt (diffMinutes now (timestamp r)) W = true.
Proof.
  unfold InfringementLog.statusLabel.
  destruct (isString (penalty_description r) "Warning");
    destruct (gt (diffMinutes now (timestamp r)) W);
    destruct (penalty_due r =? "No")%string;
    destruct (penalty_taken r);
    destruct (penalty_due r =? "Yes")%string; simpl;
    split; intros H; try discriminate H; try (destruct H; discriminate);
    auto.
Qed.

(** X11. The status of a record whose penalty is not a "Warning" depends on the
    record alone: the table and the pop-up window show the same label for
    it at every time and under every expiry window. *)
Theorem status_without_warning_ignores_clock (W W' : Q) (now now' : Z)
  (r : InfringementRecord) :
  penalty_description r <> Some "Warning" ->
  InfringementLog.statusLabel W now r = InfringementLog.statusLabel W' now' r
  /\ Popup.getStatus W now r = InfringementLog.statusLabel W' now' r.
Proof.
  intros H. apply isString_false in H. rewrite getStatus_statusLabel.
  unfold InfringementLog.statusLabel. rewrite H. split; reflexivity.
Qed.

Lemma status_without_warning_ignores_clock_witness :
  InfringementLog.statusLabel 0 0 Samples.applied5
  = InfringementLog.statusLabel (inject_Z 180) 600000 Samples.applied5.
Proof.
  apply (status_without_warning_ignores_clock 0 (inject_Z 180) 0 600000
           Samples.applied5).
  discriminate.
Defined.

(** X12. Expiry is final: a warning shown as Expired stays Expired at every
    later time, and under every window no longer than the one it expired
    under. *)
Theorem expired_stays_expired (W W' : Q) (now now' : Z)
  (r : InfringementRecord) :
  InfringementLog.statusLabel W now r = "Expired" ->
  now <= now' -> (W' <= W)%Q ->
  InfringementLog.statusLabel W' now' r = "Expired"
  /\ Popup.getStatus W' now' r = "Expired".
Proof.
  intros H Hn Hw. rewrite getStatus_statusLabel.
  assert (InfringementLog.statusLabel W' now' r = "Expired"); [|tauto].
  apply statusLabel_Expired in H. destruct H as [HW HE].
  apply statusLabel_Expired. split; [exact HW|].
  apply gt_true in HE. apply gt_true.
  rewrite diffMinutes_elapsed in *.
  apply Qle_lt_trans with (y := W); [exact Hw|].
  apply Qlt_le_trans with (y := Spec.elapsedMinutes now r); [exact HE|].
  unfold Spec.elapsedMinutes, Qle. simpl. lia.
Qed.

Lemma expired_stays_expired_witness :
  InfringementLog.statusLabel (inject_Z 60) 99000000 Samples.warning
  = "Expired".
Proof.
  apply (expired_stays_expired (inject_Z 180) (inject_Z 60) 12000000
           99000000 Samples.warning).
  - reflexivity.
  - lia.
  - unfold Qle. simpl. lia.
Defined.

End StatusAndClock.

(** ** The kart-number filter: what a search returns *)

Section KartSearch.

Import Racelith.

Lemma trimEnd_idem (s : string) : JS.trimEnd (JS.trimEnd s) = JS.trimEnd s.
Proof.
  induction s as [|c s IH]; [reflexivity|]. cbn [JS.trimEnd].
  destruct (JS.isWhiteSpace c) eqn:Ec; cbn [andb].
  - destruct (JS.trimEnd s =? "")%string eqn:Et; [reflexivity|].
    cbn [JS.trimEnd]. now rewrite Ec, IH, Et.
  - cbn [JS.trimEnd]. now rewrite Ec, IH.
Qed.

Lemma trimStart_head (s : string) :
  JS.trimStart s = ""
  \/ exists c t, JS.trimStart s = String c t /\ JS.isWhiteSpace c = false.
Proof.
  induction s as [|c s IH]; [now left|]. cbn [JS.trimStart].
  destruct (JS.isWhiteSpace c) eqn:Ec; [exact IH|].
  right. now exists c, s.
Qed.

(** Trimming is idempotent. *)
Lemma trim_idem (s : string) : JS.trim (JS.trim s) = JS.trim s.
Proof.
  unfold JS.trim.
  destruct (trimStart_head s) as [E | (c & t & E & Ec)]; rewrite E.
  - reflexivity.
  - cbn [JS.trimEnd]. rewrite Ec. cbn [andb JS.trimStart]. rewrite Ec.
    cbn [JS.trimEnd]. rewrite Ec. cbn [andb]. now rewrite trimEnd_idem.
Qed.

(** [Number] does its own trimming. *)
Lemma Number_trim (s : string) : JS.Number (JS.trim s) = JS.Number s.
Proof. unfold JS.Number. now rewrite trim_idem. Qed.


Lemma toString_uint (p : positive) :
  NilZero.string_of_uint (Pos.to_uint p)
  = NilEmpty.string_of_uint (Pos.to_uint p).
Proof.
  pose proof (DecimalPos.Unsigned.to_uint_nonnil p).
  destruct (Pos.to_uint p); reflexivity || contradiction.
Qed.








(** X15. White space around the text in the search box does not change what the
    table shows, as long as something is left when it is removed. *)
Theorem search_ignores_surrounding_space (s : string)
  (l : list InfringementRecord) :
  JS.trim s <> "" ->
  InfringementLog.filteredInfringements s l
  = InfringementLog.filteredInfringements (JS.trim s) l.
Proof.
  intros Ht. unfold InfringementLog.filteredInfringements, JS.truthy.
  assert (Hs : s <> "") by (intros ->; now apply Ht).
  apply String.eqb_neq in Hs, Ht. rewrite Hs, Ht, trim_idem. reflexivity.
Qed.

Lemma search_ignores_surrounding_space_witness :
  InfringementLog.filteredInfringements " 42 "
    [Samples.kart42; Samples.kart420]
  = InfringementLog.filteredInfringements "42"
      [Samples.kart42; Samples.kart420].
Proof.
  apply (search_ignores_surrounding_space " 42 "
           [Samples.kart42; Samples.kart420]).
  discriminate.
Defined.

End KartSearch.

(** ** The two views of the log show the same rows *)

Section LowerCase.

Import JS Lowering Racelith.

Ltac by_char c := destruct c as [[] [] [] [] [] [] [] []]; reflexivity.

Lemma lower_white (c : ascii) : isWhiteSpace (lowerChar c) = isWhiteSpace c.
Proof. by_char c. Qed.

Lemma lower_digitValue (radix : Z) (c : ascii) :
  digitValue radix (lowerChar c) = digitValue radix c.
Proof. by_char c. Qed.

Lemma lower_empty (s : string) : (toLowerCase s =? "")%string = (s =? "")%string.
Proof. destruct s; reflexivity. Qed.

Lemma lower_trimStart (s : string) :
  trimStart (toLowerCase s) = toLowerCase (trimStart s).
Proof.
  induction s as [|c s IH]; [reflexivity|].
  cbn [toLowerCase trimStart]. rewrite lower_white.
  destruct (isWhiteSpace c); [exact IH | reflexivity].
Qed.

Lemma lower_trimEnd (s : string) :
  trimEnd (toLowerCase s) = toLowerCase (trimEnd s).
Proof.
  induction s as [|c s IH]; [reflexivity|].
  cbn [toLowerCase trimEnd]. rewrite lower_white, IH, lower_empty.
  destruct (isWhiteSpace c && (trimEnd s =? "")%string); reflexivity.
Qed.

Lemma lower_trim (s : string) : trim (toLowerCase s) = toLowerCase (trim s).
Proof. unfold trim. now rewrite lower_trimStart, lower_trimEnd. Qed.

Lemma lower_chars (s : string) :
  list_ascii_of_string (toLowerCase s)
  = map lowerChar (list_ascii_of_string s).
Proof. induction s as [|c s IH]; [reflexivity|]. cbn. now rewrite IH. Qed.

Lemma lower_digits (radix : Z) (cs : list ascii) : forall acc n,
  digits radix acc n (map lowerChar cs)
  = let '(v, k, rest) := digits radix acc n cs in (v, k, map lowerChar rest).
Proof.
  induction cs as [|c cs IH]; intros acc n; [reflexivity|].
  cbn [map digits]. rewrite lower_digitValue.
  destruct (digitValue radix c); [apply IH | reflexivity].
Qed.

Lemma lower_sign (cs : list ascii) :
  sign (map lowerChar cs) = let (b, rest) := sign cs in (b, map lowerChar rest).
Proof. destruct cs as [|c cs]; [reflexivity|]. cbn [map]. by_char c. Qed.

Lemma map_nil_iff {A B} (f : A -> B) (l : list A) : map f l = [] <-> l = [].
Proof. destruct l; split; intros; try reflexivity; discriminate. Qed.

Lemma lower_exponentPart (cs : list ascii) :
  exponentPart (map lowerChar cs) = exponentPart cs.
Proof.
  destruct cs as [|c cs]; [reflexivity|]. cbn [map exponentPart].
  replace ((lowerChar c =? "e")%char || (lowerChar c =? "E")%char)
    with ((c =? "e")%char || (c =? "E")%char) by by_char c.
  destruct ((c =? "e")%char || (c =? "E")%char); [|reflexivity].
  rewrite lower_sign. destruct (sign cs) as [neg ds].
  rewrite lower_digits. destruct (digits 10 0 0 ds) as [[v k] rest].
  destruct k; [reflexivity|]. destruct rest; reflexivity.
Qed.

Lemma unsignedDecimal_unfold (cs : list ascii) :
  unsignedDecimal cs
  = let '(i, ni, r1) := digits 10 0 0 cs in
    let '(m, nf, r2) :=
      match r1 with
      | c :: r => if (c =? ".")%char then digits 10 i 0 r else (i, O, r1)
      | [] => (i, O, r1)
      end in
    match (ni + nf)%nat with
    | O => None
    | S _ =>
        match exponentPart r2 with
        | Some e => Some (m, e - Z.of_nat nf)
        | None => None
        end
    end.
Proof.
  unfold unsignedDecimal. destruct (digits 10 0 0 cs) as [[i ni] r1].
  destruct r1 as [|c r]; [reflexivity|]. by_char c.
Qed.

Lemma lower_unsignedDecimal (cs : list ascii) :
  unsignedDecimal (map lowerChar cs) = unsignedDecimal cs.
Proof.
  rewrite !unsignedDecimal_unfold, lower_digits.
  destruct (digits 10 0 0 cs) as [[i ni] r1].
  destruct r1 as [|c r].
  - cbn [map]. reflexivity.
  - cbn [map].
    replace (lowerChar c =? ".")%char with (c =? ".")%char by by_char c.
    destruct (c =? ".")%char.
    + rewrite lower_digits. destruct (digits 10 i 0 r) as [[m nf] r2].
      destruct (ni + nf)%nat; [reflexivity|].
      now rewrite lower_exponentPart.
    + destruct (ni + 0)%nat; [reflexivity|].
      change (lowerChar c :: map lowerChar r) with (map lowerChar (c :: r)).
      now rewrite lower_exponentPart.
Qed.

Lemma nonDecimalLiteral_unfold (cs : list ascii) :
  nonDecimalLiteral cs
  = match cs with
    | c :: p :: ds =>
        if (c =? "0")%char then
          match radixOf p with
          | Some r =>
              match digits r 0 0 ds with
              | (v, S _, []) => Some v
              | _ => None
              end
          | None => None
          end
        else None
    | _ => None
    end.
Proof.
  destruct cs as [|c [|p ds]].
  - reflexivity.
  - by_char c.
  - by_char c.
Qed.

Lemma lower_nonDecimalLiteral (cs : list ascii) :
  nonDecimalLiteral (map lowerChar cs) = nonDecimalLiteral cs.
Proof.
  rewrite !nonDecimalLiteral_unfold.
  destruct cs as [|c [|p ds]]; try reflexivity. cbn [map].
  replace (lowerChar c =? "0")%char with (c =? "0")%char by by_char c.
  destruct (c =? "0")%char; [|reflexivity].
  replace (radixOf (lowerChar p)) with (radixOf p) by by_char p.
  destruct (radixOf p) as [r|]; [|reflexivity].
  rewrite lower_digits. destruct (digits r 0 0 ds) as [[v k] rest].
  destruct k; [reflexivity|]. destruct rest; reflexivity.
Qed.

Lemma lower_not_Infinity (cs : list ascii) :
  (string_of_list_ascii (map lowerChar cs) =? "Infinity")%string = false.
Proof.
  destruct cs as [|c cs]; [reflexivity|]. cbn [map string_of_list_ascii].
  cbn [String.eqb].
  replace (lowerChar c =? "I")%char with false by by_char c. reflexivity.
Qed.

Lemma lower_decimalLiteral (cs : list ascii) :
  decimalLiteral (map lowerChar cs) = finiteOnly (decimalLiteral cs).
Proof.
  unfold decimalLiteral. rewrite lower_sign.
  destruct (sign cs) as [neg body].
  rewrite lower_not_Infinity, lower_unsignedDecimal.
  destruct (string_of_list_ascii body =? "Infinity")%string eqn:E.
  - apply String.eqb_eq in E.
    assert (Hb : body = list_ascii_of_string "Infinity")
      by (rewrite <- E; symmetry; apply list_ascii_of_string_of_list_ascii).
    rewrite Hb. reflexivity.
  - destruct (unsignedDecimal body) as [[m e]|]; reflexivity.
Qed.

Lemma Number_lower (s : string) :
  Number (toLowerCase s) = finiteOnly (Number s).
Proof.
  unfold Number. rewrite lower_trim, lower_chars.
  destruct (list_ascii_of_string (trim s)) as [|c cs] eqn:E;
    [reflexivity|].
  cbn [map]. cbv iota.
  change (lowerChar c :: map lowerChar cs) with (map lowerChar (c :: cs)).
  rewrite lower_nonDecimalLiteral.
  destruct (nonDecimalLiteral (c :: cs)); [reflexivity|].
  apply lower_decimalLiteral.
Qed.

Lemma kart_match_ext (sv sv' : string) (k : Z) :
  (forall q, Number sv = Finite q <-> Number sv' = Finite q) ->
  (toString k =? sv)%string
  || strictEquals (Number (toString k)) (Number sv)
  = (toString k =? sv')%string
    || strictEquals (Number (toString k)) (Number sv').
Proof.
  intros H. apply eq_true_iff_eq. rewrite !kart_match.
  split; intros (q & E & Hq); exists q; split; trivial; now apply H.
Qed.

(** X16. Whenever the search box holds more than white space, the pop-up window
    and the table show the same rows for it, in the same order, although
    the pop-up lower-cases the input and the table does not. *)
Theorem views_agree_on_search (value : string)
  (d : list InfringementRecord) :
  trim value <> "" ->
  Popup.refreshTable_rows value d
  = InfringementLog.filteredInfringements value d.
Proof.
  intros Ht.
  assert (Hv : value <> "") by (intros ->; now apply Ht).
  unfold Popup.refreshTable_rows, InfringementLog.filteredInfringements,
    truthy.
  apply String.eqb_neq in Hv, Ht. rewrite lower_empty, Ht, Hv.
  cbn [negb]. apply filter_ext. intros r. apply kart_match_ext.
  intros q. rewrite Number_lower.
  destruct (Number (trim value)); simpl; split; intros H; trivial;
    discriminate H.
Qed.

Lemma views_agree_on_search_witness :
  Popup.refreshTable_rows " 0X2A " [Samples.kart42; Samples.kart420]
  = InfringementLog.filteredInfringements " 0X2A "
      [Samples.kart42; Samples.kart420].
Proof.
  apply (views_agree_on_search " 0X2A " [Samples.kart42; Samples.kart420]).
  discriminate.
Defined.

End LowerCase.

(** ** The session-backed application: loading, creating, saving *)

Section ShellHandlers.

Import Racelith Racelith.App Shell.

Lemma checkActiveSession_lists (response : Settled (list Session))
  (m : Model) :
  infringements (fst (checkActiveSession response m)) = infringements m
  /\ pendingPenalties (fst (checkActiveSession response m))
     = pendingPenalties m
  /\ toasts (fst (checkActiveSession response m)) = toasts m
  /\ isLoading (fst (checkActiveSession response m)) = isLoading m
  /\ loadError (fst (checkActiveSession response m)) = loadError m.
Proof.
  unfold checkActiveSession. destruct response as [all|msg]; simpl; [|tauto].
  destruct (find _ all); simpl; tauto.
Qed.


(** X18. Every handler gives its busy flag back: after a load with spinner the
    spinner is off, after applying a penalty the apply button is free and
    after a save the dialog is no longer saving, however the requests end;
    a load without spinner leaves the spinner as it was. *)
Theorem busy_flags_are_released
  (sessionsResponse : Settled (list Session))
  (listsResponse : Settled (list InfringementRecord * list PendingPenalty))
  (applied : Settled unit) (updated : Settled InfringementRecord)
  (pending : Settled (list PendingPenalty)) (m : Model) :
  isLoading (loadData true sessionsResponse listsResponse m) = false
  /\ isLoading (loadData false sessionsResponse listsResponse m)
     = isLoading m
  /\ isApplyingPenalty
       (handleApplyPenalty applied sessionsResponse listsResponse m) = false
  /\ isLoading (handleApplyPenalty applied sessionsResponse listsResponse m)
     = match applied with Resolved _ => false | Rejected _ => isLoading m end
  /\ isSavingEdit (handleSaveEdit updated pending m) = false.
Proof.
  assert (Hfalse : isLoading (loadData false sessionsResponse listsResponse m)
                   = isLoading m).
  { unfold loadData.
    destruct (checkActiveSession sessionsResponse m) as [m1 c] eqn:E.
    pose proof (f_equal fst E) as E1. simpl in E1. subst m1.
    destruct (checkActiveSession_lists sessionsResponse m)
      as (_ & _ & _ & Hl & _).
    destruct listsResponse as [[i p]|msg]; simpl; [exact Hl|].
    destruct (includes _ "relation" || includes _ "does not exist"
              || includes _ "table"); simpl; exact Hl. }
  split; [|split; [exact Hfalse|split; [|split]]].
  - unfold loadData. destruct (checkActiveSession _ _). reflexivity.
  - reflexivity.
  - unfold handleApplyPenalty. destruct applied; simpl; [|reflexivity].
    unfold loadData. destruct (checkActiveSession _ _). reflexivity.
  - reflexivity.
Qed.

(** X19. A created record is put at the head of the list as soon as the create
    call resolves, whether or not the pending list can then be fetched: if
    that fetch is rejected the record stays, the pending list is the old
    one, and the toast is the error one.  A rejected create changes neither
    list.  Either way exactly one toast is raised. *)
Theorem handleNewInfringement_outcome (created : Settled InfringementRecord)
  (pending : Settled (list PendingPenalty)) (m : Model) :
  infringements (handleNewInfringement created pending m)
  = match created with
    | Resolved record => record :: infringements m
    | Rejected _ => infringements m
    end
  /\ pendingPenalties (handleNewInfringement created pending m)
     = match created, pending with
       | Resolved _, Resolved p => p
       | _, _ => pendingPenalties m
       end
  /\ (exists t,
        toasts (handleNewInfringement created pending m)
        = (toasts m ++ [t])%list
        /\ (t = ToastSuccess "Infringement created successfully"
            <-> exists record p,
                  created = Resolved record /\ pending = Resolved p)).
Proof.
  unfold handleNewInfringement.
  destruct created as [record|msg]; [destruct pending as [p|msg]|]; simpl;
    (split; [reflexivity|]); (split; [reflexivity|]);
    eexists; (split; [reflexivity|]); split.
  - intros _. now exists record, p.
  - reflexivity.
  - discriminate.
  - intros (r' & p' & _ & H2). discriminate H2.
  - discriminate.
  - intros (r' & p' & H1 & _). discriminate H1.
Qed.

(** X20. A saved edit replaces the records that carry the id of the record the
    server returned and no other; the list keeps its length, and when no
    listed record carries that id the list is left as it was. *)
Theorem handleSaveEdit_frame (u : InfringementRecord)
  (pending : Settled (list PendingPenalty)) (m : Model) :
  Forall2
    (fun r r' => (id r <> id u -> r' = r) /\ (id r = id u -> r' = u))
    (infringements m)
    (infringements (handleSaveEdit (Resolved u) pending m))
  /\ ((forall r, In r (infringements m) -> id r <> id u) ->
      infringements (handleSaveEdit (Resolved u) pending m)
      = infringements m)
  /\ (forall message,
        infringements (handleSaveEdit (Rejected message) pending m)
        = infringements m
        /\ pendingPenalties (handleSaveEdit (Rejected message) pending m)
           = pendingPenalties m).
Proof.
  assert (E : infringements (handleSaveEdit (Resolved u) pending m)
              = map (fun inf => if id inf =? id u then u else inf)
                  (infringements m)).
  { unfold handleSaveEdit. destruct pending; reflexivity. }
  rewrite E. clear E. split; [|split].
  - induction (infringements m) as [|r l IH]; [constructor|].
    cbn [map]. constructor; [|exact IH].
    destruct (Z.eqb_spec (id r) (id u)); split; congruence.
  - intros H. apply map_fixed. intros r Hr.
    destruct (Z.eqb_spec (id r) (id u)) as [Eq|Eq]; [|reflexivity].
    now apply H in Hr.
  - intros message. split; reflexivity.
Qed.

Lemma handleSaveEdit_frame_witness :
  infringements
    (handleSaveEdit (Resolved Samples.kart420)
       (Rejected "")
       (mkModel penalty_logging None [Samples.kart0; Samples.kart5] []
          None false false false false None None []))
  = [Samples.kart0; Samples.kart5].
Proof.
  apply (proj1 (proj2
           (handleSaveEdit_frame Samples.kart420 (Rejected "")
              (mkModel penalty_logging None [Samples.kart0; Samples.kart5] []
                 None false false false false None None [])))).
  intros r [<-|[<-|[]]]; discriminate.
Defined.

(** X21. When the apply call resolves the success toast is raised last, also
    when the reload that precedes it failed and raised its own error toast;
    when the call is rejected nothing is reloaded: both lists stay and the
    one toast raised is the error. *)
Theorem handleApplyPenalty_outcome
  (sessionsResponse : Settled (list Session))
  (listsResponse : Settled (list InfringementRecord * list PendingPenalty))
  (m : Model) :
  toasts (handleApplyPenalty (Resolved tt) sessionsResponse listsResponse m)
  = (toasts (loadData true sessionsResponse listsResponse m)
     ++ [ToastSuccess "Penalty applied successfully"])%list
  /\ infringements
       (handleApplyPenalty (Resolved tt) sessionsResponse listsResponse m)
     = infringements (loadData true sessionsResponse listsResponse m)
  /\ (forall message,
        infringements
          (handleApplyPenalty (Rejected message) sessionsResponse
             listsResponse m) = infringements m
        /\ pendingPenalties
             (handleApplyPenalty (Rejected message) sessionsResponse
                listsResponse m) = pendingPenalties m
        /\ toasts
             (handleApplyPenalty (Rejected message) sessionsResponse
                listsResponse m)
           = (toasts m
              ++ [ToastError "Error Applying Penalty"
                    (orElse message "Failed to apply penalty")])%list).
Proof.
  unfold handleApplyPenalty. simpl.
  assert (H : forall m0,
            toasts (loadData true sessionsResponse listsResponse
                      (setIsApplyingPenalty true m0))
            = toasts (loadData true sessionsResponse listsResponse m0)
            /\ infringements (loadData true sessionsResponse listsResponse
                                (setIsApplyingPenalty true m0))
               = infringements
                   (loadData true sessionsResponse listsResponse m0)).
  { intros m0. unfold loadData, checkActiveSession.
    destruct sessionsResponse as [all|msg];
      [destruct (find _ all)|];
      (destruct listsResponse as [[i p]|msg'];
       [split; reflexivity|]);
      cbv zeta;
      destruct (includes _ "relation" || includes _ "does not exist"
                || includes _ "table"); split; reflexivity. }
  destruct (H m) as [Ht Hi]. rewrite Ht, Hi. repeat split.
Qed.


(** X23. Deleting keeps the pending list within the infringement list: if every
    pending penalty is that of a listed record before, so it is after, and
    deleting the same id again changes nothing more. *)
Theorem delete_keeps_pending_within (response : Settled unit) (id0 : Z)
  (st : State) :
  (forall p, In p (App.pendingPenalties st) ->
             exists r, In r (App.infringements st) /\ id r = id p) ->
  (forall p,
     In p (App.pendingPenalties (fst (App.handleDeleteInfringement response id0 st)))
     -> exists r,
          In r (App.infringements
                  (fst (App.handleDeleteInfringement response id0 st)))
          /\ id r = id p)
  /\ fst (App.handleDeleteInfringement (Resolved tt) id0
            (fst (App.handleDeleteInfringement (Resolved tt) id0 st)))
     = fst (App.handleDeleteInfringement (Resolved tt) id0 st).
Proof.
  intros H. split.
  - destruct response as [u|msg]; [|exact H]. simpl. intros p Hp.
    apply session_delete_In in Hp. destruct Hp as [Hp Hne].
    destruct (H p Hp) as (r & Hr & E). exists r. split; [|exact E].
    apply session_delete_In. split; [exact Hr | congruence].
  - simpl. f_equal; apply filter_all; intros r Hr;
      apply session_delete_In in Hr; destruct Hr as [_ Hne];
      apply negb_true_iff, Z.eqb_neq; exact Hne.
Qed.

Lemma delete_keeps_pending_within_witness :
  fst (App.handleDeleteInfringement (Resolved tt) 1
         (fst (App.handleDeleteInfringement (Resolved tt) 1
                 (mkState [Samples.kart0; Samples.kart5] [Samples.kart5]))))
  = mkState [Samples.kart5] [Samples.kart5].
Proof.
  refine (eq_trans
            (proj2 (delete_keeps_pending_within (Resolved tt) 1
                      (mkState [Samples.kart0; Samples.kart5]
                         [Samples.kart5]) _)) _);
    [|reflexivity].
  intros p [<-|[]]. exists Samples.kart5. split; [right; now left|reflexivity].
Defined.

End ShellHandlers.

(** ** The turn cell *)

Section TurnCell.

Import Racelith Cells.

Lemma escapeHtml_uint (d : Decimal.uint) :
  escapeHtml (NilEmpty.string_of_uint d) = NilEmpty.string_of_uint d.
Proof.
  induction d; cbn [NilEmpty.string_of_uint escapeHtml]; try reflexivity;
    rewrite IHd; reflexivity.
Qed.

(** A numeral needs no escaping. *)
Lemma escapeHtml_toString (n : Z) :
  escapeHtml (JS.toString n) = JS.toString n.
Proof.
  unfold JS.toString. destruct n as [|p|p]; [reflexivity| |];
    cbn [Z.to_int NilZero.string_of_int]; rewrite toString_uint.
  - apply escapeHtml_uint.
  - cbn [escapeHtml]. rewrite escapeHtml_uint. reflexivity.
Qed.

(** X24. The table and the pop-up window show the same turn for a record, the
    numeral of its turn number or a dash when it has none, except for turn
    0: the table shows "0" and the pop-up window a dash. *)
Theorem turn_cells_agree_but_for_zero (r : InfringementRecord) :
  (tableTurn r = popupTurn r <-> turn_number r <> Some 0)
  /\ (turn_number r = Some 0 ->
      tableTurn r = Text "0" /\ popupTurn r = Dash).
Proof.
  unfold tableTurn, popupTurn. destruct (turn_number r) as [n|].
  - rewrite escapeHtml_toString. destruct (Z.eqb_spec n 0) as [E|E].
    + subst n. split; [split|]; [discriminate | congruence | tauto].
    + split; [split|]; [congruence | reflexivity | congruence].
  - split; [split|]; [discriminate | reflexivity | discriminate].
Qed.

End TurnCell.
